(** * slogtool: the mode resolver and the logger facade

    A shallow embedding of the Go package [slogtool]
    ([convert_modes.go] and the logger file) together with the
    properties its specification states about it.

    Layout:
    - [ModeResolver]: [Mode], [ParseMode], [ConvertLoggerMode];
    - [Os], [Slog], [Tint]: the parts of [os], [log/slog] and [tint] the
      package calls (writers and open flags; attributes, argument pairing,
      records and handlers);
    - the runtime: the store of [Slogger] structs, the return/panic monad
      and the environment of the process;
    - the facade: [getHandlerForOutput], [InitLogger] and the methods of
      [*Slogger];
    - the vocabulary of the statements, then the theorems, one block per
      specification claim. *)

From Stdlib Require Import ZArith String List.
From stdpp Require Import base gmap strings list.

Local Open Scope Z_scope.
Local Open Scope string_scope.
Local Open Scope list_scope.

(** ** Severity levels

    [type LogLevel int] with the [iota] constants of the logger file. A Go
    [int] that is only compared against constants is embedded as [Z]. *)

Definition LogLevel := Z.

Definition LevelDebug : LogLevel := 0.
Definition LevelInfo  : LogLevel := 1.
Definition LevelWarn  : LogLevel := 2.
Definition LevelError : LogLevel := 3.

(** ** The mode resolver ([convert_modes.go]) *)

Module ModeResolver.

(** [type Mode string]: every string is a [Mode] value. *)
Definition Mode := string.

Definition DevMode  : Mode := "dev".
Definition ProdMode : Mode := "prod".

(** [func (m Mode) String() string] *)
Definition Mode_String (m : Mode) : string := m.

(** [func ParseMode(mode string) Mode]: a [switch] on string equality,
    cases tried in source order. *)
Definition ParseMode (mode : string) : Mode :=
  if String.eqb mode (Mode_String DevMode) then DevMode
  else if String.eqb mode (Mode_String ProdMode) then ProdMode
  else ProdMode.

(** [func ConvertLoggerMode(mode Mode) LogLevel] *)
Definition ConvertLoggerMode (mode : Mode) : LogLevel :=
  if String.eqb mode DevMode then LevelDebug
  else if String.eqb mode ProdMode then LevelInfo
  else LevelInfo.

End ModeResolver.

(** ** The operating-system interface ([os], [io])

    Only what [InitLogger] touches: the two standard streams, file handles,
    the open flags and the permission bits. The flag constants are the
    Linux values of [syscall.O_WRONLY], [syscall.O_CREAT] and
    [syscall.O_APPEND]. *)

Module Os.

Definition O_WRONLY : Z := 1.      (* 0x1   *)
Definition O_CREATE : Z := 64.     (* 0x40  *)
Definition O_EXCL   : Z := 128.    (* 0x80  *)
Definition O_TRUNC  : Z := 512.    (* 0x200 *)
Definition O_APPEND : Z := 1024.   (* 0x400 *)

(** [*os.File]: a descriptor together with the name it was opened under. *)
Record File := { Fd : Z; Name : string }.

(** [io.Writer] as [InitLogger] uses it: one of the process streams or an
    opened file. *)
Inductive Writer :=
| Stdout
| Stderr
| FileWriter (f : File).

(** One request made to the filesystem: [os.OpenFile(name, flag, perm)]. *)
Record OpenCall := { call_name : string; call_flag : Z; call_perm : Z }.

End Os.

(** ** Go's [error] interface

    A type implements [error] when it has the method [Error() string];
    a value of interface type [error] is either [nil] ([None]) or a value
    of an implementing type. *)

Class GoError (E : Type) := Error_text : E -> string.

(** [errors.New(text)] *)
Record errorString := errors_New { errorString_s : string }.

#[global] Instance errorString_GoError : GoError errorString := errorString_s.

(** ** The structured-logging backend ([log/slog])

    Attributes, the pairing of variadic arguments into attributes, records
    and handlers, following the documented behaviour of the library:
    an argument that is an [Attr] is used as is; a string that is not the
    last argument is a key and takes the next argument as its value;
    anything else becomes a value under the key ["!BADKEY"]. *)

Module Slog.

Definition Level := Z.
Definition LevelDebug : Level := -4.
Definition LevelInfo  : Level := 0.
Definition LevelWarn  : Level := 4.
Definition LevelError : Level := 8.

(** [slog.Attr], [slog.Value] and the dynamic values ([any]) that reach
    the logger as variadic arguments. *)
Inductive Attr :=
| mkAttr (key : string) (value : Value)
with Value :=
| KindString (s : string)
| KindInt64 (n : Z)
| KindBool (b : bool)
| KindGroup (members : list Attr)
| KindAny (x : any)
with any :=
| any_nil
| any_string (s : string)
| any_int (n : Z)
| any_bool (b : bool)
| any_Attr (a : Attr)
| any_Attrs (l : list Attr).

Definition Key (a : Attr) : string := let 'mkAttr k _ := a in k.
Definition Val (a : Attr) : Value := let 'mkAttr _ v := a in v.

Definition badKey : string := "!BADKEY".

(** [Value.isEmptyGroup] *)
Definition isEmptyGroup (v : Value) : bool :=
  match v with
  | KindGroup [] => true
  | _ => false
  end.

Definition keepAttr (a : Attr) : bool := negb (isEmptyGroup (Val a)).

(** [slog.StringValue], [slog.GroupValue] (which drops empty groups) and
    [slog.AnyValue] (a type switch on the dynamic type). *)
Definition StringValue (s : string) : Value := KindString s.

Definition GroupValue (l : list Attr) : Value :=
  KindGroup (List.filter keepAttr l).

Definition AnyValue (x : any) : Value :=
  match x with
  | any_string s => StringValue s
  | any_int n => KindInt64 n
  | any_bool b => KindBool b
  | any_Attrs l => GroupValue l
  | any_nil => KindAny any_nil
  | any_Attr a => KindAny (any_Attr a)
  end.

(** [slog.String(key, value)] and [slog.Any(key, value)] *)
Definition String (k v : string) : Attr := mkAttr k (StringValue v).
Definition Any (k : string) (v : any) : Attr := mkAttr k (AnyValue v).

(** [argsToAttr]: turn the head of a non-empty argument list into an
    attribute and return what is left. *)
Definition argsToAttr (args : list any) : option (Attr * list any) :=
  match args with
  | [] => None
  | any_string x :: [] => Some (String badKey x, [])
  | any_string x :: v :: rest => Some (Any x v, rest)
  | any_Attr a :: rest => Some (a, rest)
  | x :: rest => Some (Any badKey x, rest)
  end.

(** [argsToAttrSlice]: the loop [for len(args) > 0 { attr, args =
    argsToAttr(args); attrs = append(attrs, attr) }]. *)
Fixpoint argsToAttrSlice (args : list any) : list Attr :=
  match args with
  | [] => []
  | any_string x :: [] => [String badKey x]
  | any_string x :: v :: rest => Any x v :: argsToAttrSlice rest
  | any_Attr a :: rest => a :: argsToAttrSlice rest
  | x :: rest => Any badKey x :: argsToAttrSlice rest
  end.

(** [slog.Group(key, args...)] *)
Definition Group (k : string) (args : list any) : Attr :=
  mkAttr k (GroupValue (argsToAttrSlice args)).

(** [slog.Record] without its clock reading and program counter. *)
Record Record_ := {
  rec_level : Level;
  rec_msg : string;
  rec_attrs : list Attr
}.

Definition NewRecord (lvl : Level) (msg : string) : Record_ :=
  {| rec_level := lvl; rec_msg := msg; rec_attrs := [] |}.

(** [Record.Add(args...)]: the same pairing loop, skipping empty groups. *)
Definition Record_Add (r : Record_) (args : list any) : Record_ :=
  {| rec_level := rec_level r;
     rec_msg := rec_msg r;
     rec_attrs := rec_attrs r ++ List.filter keepAttr (argsToAttrSlice args) |}.

(** The two handler implementations the package constructs. The text
    renderer of [tint] carries its time layout and whether colour is
    switched off. *)
Inductive Renderer :=
| TintText (timeFormat : string) (noColor : bool)
| JSON.

Record Handler := {
  renderer : Renderer;
  w : Os.Writer;
  level : Level;          (* the floor: [Enabled] compares against it *)
  attrs : list Attr       (* attached by [WithAttrs] *)
}.

Record HandlerOptions := { Level_ : Level }.

(** [slog.NewJSONHandler(w, opts)] with a non-nil [opts.Level]. *)
Definition NewJSONHandler (out : Os.Writer) (opts : HandlerOptions) : Handler :=
  {| renderer := JSON; w := out; level := Level_ opts; attrs := [] |}.

(** [Handler.Enabled]: [level >= floor]. *)
Definition Enabled (h : Handler) (lvl : Level) : bool := Z.leb (level h) lvl.

(** [Handler.WithAttrs]: a copy of the handler with more attributes. *)
Definition WithAttrs (h : Handler) (l : list Attr) : Handler :=
  {| renderer := renderer h; w := w h; level := level h;
     attrs := attrs h ++ l |}.

(** What a handler writes for one record: where, in which rendering, and
    the fields in output order (attached attributes first). *)
Record Emission := {
  em_sink : Os.Writer;
  em_renderer : Renderer;
  em_level : Level;
  em_msg : string;
  em_attrs : list Attr
}.

Definition Handle (h : Handler) (r : Record_) : Emission :=
  {| em_sink := w h; em_renderer := renderer h;
     em_level := rec_level r; em_msg := rec_msg r;
     em_attrs := attrs h ++ rec_attrs r |}.

(** [slog.Logger]: a handler behind a pointer that no method mutates, so
    it is embedded by value. *)
Record Logger := New { handler : Handler }.

(** [Logger.With(args...)] *)
Definition Logger_With (l : Logger) (args : list any) : Logger :=
  match args with
  | [] => l
  | _ => New (WithAttrs (handler l) (argsToAttrSlice args))
  end.

(** [Logger.log]: nothing when the level is below the floor, otherwise
    one record handed to the handler (whose write error is discarded). *)
Definition Logger_log (l : Logger) (lvl : Level) (msg : string)
           (args : list any) : list Emission :=
  if Enabled (handler l) lvl
  then [Handle (handler l) (Record_Add (NewRecord lvl msg) args)]
  else [].

End Slog.

(** ** The pretty handler ([github.com/lmittmann/tint]) *)

Module Tint.

Record Options := {
  Level : Slog.Level;
  TimeFormat : string;
  NoColor : bool
}.

(** [time.StampMilli], the layout used when [TimeFormat] is empty. *)
Definition defaultTimeFormat : string := "Jan _2 15:04:05.000".

(** [tint.NewHandler(w, opts)] with non-nil [opts]. *)
Definition NewHandler (out : Os.Writer) (opts : Options) : Slog.Handler :=
  {| Slog.renderer :=
       Slog.TintText
         (if String.eqb (TimeFormat opts) "" then defaultTimeFormat
          else TimeFormat opts)
         (NoColor opts);
     Slog.w := out;
     Slog.level := Level opts;
     Slog.attrs := [] |}.

End Tint.

(** [time.Kitchen] *)
Definition time_Kitchen : string := "3:04PM".

(** [runtime/debug.BuildInfo] *)
Record BuildInfo := { GoVersion : string }.

(** ** Runtime: the store, panics and the environment

    A [*Slogger] is an address into a store of [Slogger] structs. A method
    either returns or panics, and may allocate, ask the filesystem to open
    a file, or hand records to a sink; all three are kept in the [World]. *)

(** [type Slogger struct { logger *slog.Logger }]; [None] is the nil
    pointer of the zero value. *)
Record Slogger := { logger : option Slog.Logger }.

Definition loc := positive.

Record World := {
  heap : gmap loc Slogger;           (* the allocated [Slogger] structs *)
  opens : list Os.OpenCall;          (* filesystem requests, oldest first *)
  written : list Slog.Emission       (* records handed to sinks, oldest first *)
}.

Inductive Outcome (A : Type) :=
| Returned (a : A)
| Panicked (v : string).
Arguments Returned {A} a.
Arguments Panicked {A} v.

Definition M (A : Type) : Type := World -> Outcome A * World.

#[global] Instance M_ret : MRet M := fun A a σ => (Returned a, σ).

#[global] Instance M_bind : MBind M := fun A B f m σ =>
  match m σ with
  | (Returned a, σ') => f a σ'
  | (Panicked v, σ') => (Panicked v, σ')
  end.

Definition panic {A} (v : string) : M A := fun σ => (Panicked v, σ).

(** The runtime error of dereferencing a nil pointer. *)
Definition nilDereference : string :=
  "runtime error: invalid memory address or nil pointer dereference".

(** [*l] *)
Definition deref (l : loc) : M Slogger := fun σ =>
  match heap σ !! l with
  | Some s => (Returned s, σ)
  | None => (Panicked nilDereference, σ)
  end.

(** [&s] for a struct that escapes: a fresh address holding [s]. *)
Definition alloc (s : Slogger) : M loc := fun σ =>
  let l := fresh (dom (heap σ)) in
  (Returned l,
   {| heap := <[l := s]> (heap σ); opens := opens σ; written := written σ |}).

(** Records reaching their sink. *)
Definition emit (es : list Slog.Emission) : M unit := fun σ =>
  (Returned tt,
   {| heap := heap σ; opens := opens σ; written := written σ ++ es |}).

(** The level methods of a possibly nil [*slog.Logger]. *)
Definition Logger_log_ptr (lg : option Slog.Logger) (lvl : Slog.Level)
           (msg : string) (args : list Slog.any) : M unit :=
  match lg with
  | None => panic nilDereference
  | Some lg => emit (Slog.Logger_log lg lvl msg args)
  end.

(** [Logger.With] on a possibly nil [*slog.Logger]: with no arguments the
    receiver is returned before it is dereferenced. *)
Definition Logger_With_ptr (lg : option Slog.Logger) (args : list Slog.any)
  : M (option Slog.Logger) :=
  match args, lg with
  | [], _ => mret lg
  | _, None => panic nilDereference
  | _, Some lg => mret (Some (Slog.Logger_With lg args))
  end.

(** ** The logger facade *)

(** [getHandlerForOutput]: a [switch] over the four level constants. *)
Definition getHandlerForOutput (output : Os.Writer) (mode : LogLevel)
           (options : Tint.Options) : Slog.Handler :=
  if Z.eqb mode LevelDebug then Tint.NewHandler output options
  else if Z.eqb mode LevelInfo then
    Slog.NewJSONHandler output {| Slog.Level_ := Slog.LevelInfo |}
  else if Z.eqb mode LevelWarn then
    Slog.NewJSONHandler output {| Slog.Level_ := Slog.LevelWarn |}
  else if Z.eqb mode LevelError then
    Slog.NewJSONHandler output {| Slog.Level_ := Slog.LevelError |}
  else Tint.NewHandler output options.

(** [StringAttr] and [AnyAttr] ignore their receiver. *)
Definition StringAttr (l : loc) (attribute value : string) : Slog.any :=
  Slog.any_Attr (Slog.String attribute value).

Definition AnyAttr (l : loc) (attribute : string) (value : Slog.any) : Slog.any :=
  Slog.any_Attr (Slog.Any attribute value).

Definition Debug (l : loc) (description : string) (attributes : list Slog.any)
  : M unit :=
  s ← deref l;
  Logger_log_ptr (logger s) Slog.LevelDebug description attributes.

Definition Info (l : loc) (description : string) (attributes : list Slog.any)
  : M unit :=
  s ← deref l;
  Logger_log_ptr (logger s) Slog.LevelInfo description attributes.

Definition Warn (l : loc) (description : string) (attributes : list Slog.any)
  : M unit :=
  s ← deref l;
  Logger_log_ptr (logger s) Slog.LevelWarn description attributes.

(** [WithOperation]: [newLogger := *l], replace its [logger] field, return
    [&newLogger]. *)
Definition WithOperation (l : loc) (operation : string) : M loc :=
  newLogger ← deref l;
  lg ← Logger_With_ptr (logger newLogger)
         [Slog.any_Attr (Slog.String "operation" operation)];
  alloc {| logger := lg |}.

Definition With (l : loc) (attributes : list Slog.any) : M loc :=
  newLogger ← deref l;
  lg ← Logger_With_ptr (logger newLogger) attributes;
  alloc {| logger := lg |}.

Section WithErrors.

(** The dynamic type behind the [error] values in play. *)
Context {E : Type} {E_error : GoError E}.

(** What the process finds around it: the outcome of opening a file and
    the build information embedded in the binary. *)
Record Env := {
  OpenFile : string -> Z -> Z -> Os.File + E;
  ReadBuildInfo : option BuildInfo
}.

(** [os.OpenFile(name, flag, perm)]: the request is recorded. *)
Definition os_OpenFile (env : Env) (name : string) (flag perm : Z)
  : M (Os.File + E) := fun σ =>
  (Returned (OpenFile env name flag perm),
   {| heap := heap σ;
      opens := opens σ ++ [{| Os.call_name := name; Os.call_flag := flag;
                              Os.call_perm := perm |}];
      written := written σ |}).

(** [func (l *Slogger) Error(description string, err error, attributes ...any)] *)
Definition Error (l : loc) (description : string) (err : option E)
           (attributes : list Slog.any) : M unit :=
  match err with
  | None =>
      let attrs :=
        (attributes ++ [Slog.any_Attr (Slog.String "error" "nil")])%list in
      s ← deref l;
      Logger_log_ptr (logger s) Slog.LevelError description attrs
  | Some e =>
      let attrs :=
        (attributes
           ++ [Slog.any_Attr (Slog.String "error" (Error_text e))])%list in
      s ← deref l;
      Logger_log_ptr (logger s) Slog.LevelError description attrs
  end.

(** [func (l *Slogger) LogAndReturnError(...) error] *)
Definition LogAndReturnError (l : loc) (message : string) (err : option E)
           (attributes : list Slog.any) : M (option E) :=
  Error l message err attributes;;
  mret err.

(** [func InitLogger(mode LogLevel, output string) *Slogger] *)
Definition InitLogger (env : Env) (mode : LogLevel) (output : string) : M loc :=
  let options :=
    {| Tint.Level := Slog.LevelDebug; Tint.TimeFormat := time_Kitchen;
       Tint.NoColor := false |} in
  handler ←
    (if String.eqb output "stdout" then
       mret (getHandlerForOutput Os.Stdout mode options)
     else if String.eqb output "stderr" then
       mret (getHandlerForOutput Os.Stderr mode options)
     else
       r ← os_OpenFile env output
             (Z.lor (Z.lor Os.O_WRONLY Os.O_CREATE) Os.O_APPEND) 493 (* 0755 *);
       match r with
       | inr err =>
           panic ("error opening log file " +:+ output +:+ ": " +:+ Error_text err)
       | inl file =>
           mret (getHandlerForOutput (Os.FileWriter file) mode options)
       end);
  let buildInfo :=
    match ReadBuildInfo env with
    | None => {| GoVersion := "unknown" |}
    | Some info => info
    end in
  lg ← Logger_With_ptr (Some (Slog.New handler))
         [Slog.any_Attr
            (Slog.Group "program_info"
               [Slog.any_Attr (Slog.String "go_version" (GoVersion buildInfo))])];
  alloc {| logger := lg |}.

End WithErrors.

Arguments Env E : clear implicits.

(** ** Vocabulary for the statements

    Names for sub-expressions of [InitLogger], observations on a [World],
    and the conditions the theorems are stated under. *)

(** The [tint] options [InitLogger] builds. *)
Definition initOptions : Tint.Options :=
  {| Tint.Level := Slog.LevelDebug; Tint.TimeFormat := time_Kitchen;
     Tint.NoColor := false |}.

(** The flag and permission arguments [InitLogger] passes to [os.OpenFile]. *)
Definition logFileFlag : Z := Z.lor (Z.lor Os.O_WRONLY Os.O_CREATE) Os.O_APPEND.
Definition logFilePerm : Z := 493.

(** A flag word requests [bit] when all of the bits of [bit] are set. *)
Definition requests (flag bit : Z) : bool := Z.eqb (Z.land flag bit) bit.

(** Read, write and execute for the owner: [0700]. *)
Definition ownerAll : Z := 448.

(** The [slog] level that carries the same name as a facade level. *)
Definition floorOf (mode : LogLevel) : Slog.Level :=
  if Z.eqb mode LevelInfo then Slog.LevelInfo
  else if Z.eqb mode LevelWarn then Slog.LevelWarn
  else if Z.eqb mode LevelError then Slog.LevelError
  else Slog.LevelDebug.

(** The pairing of [args] stops on a string that has no value after it. *)
Fixpoint danglingKey (args : list Slog.any) : bool :=
  match args with
  | [] => false
  | Slog.any_string _ :: [] => true
  | Slog.any_string _ :: _ :: rest => danglingKey rest
  | _ :: rest => danglingKey rest
  end.

(** An argument that opens a key/value pair, and the attribute an argument
    that does not open one becomes on its own. *)
Definition isKey (x : Slog.any) : bool :=
  match x with
  | Slog.any_string _ => true
  | _ => false
  end.

Definition loneAttr (x : Slog.any) : Slog.Attr :=
  match x with
  | Slog.any_Attr a => a
  | _ => Slog.Any Slog.badKey x
  end.

(** Some attribute of the list is stored under the key [k]. *)
Definition hasKey (k : string) (l : list Slog.Attr) : bool :=
  existsb (fun a => String.eqb (Slog.Key a) k) l.

(** The text the specification puts under the key ["error"]: the literal
    ["nil"] for an absent error, the error's message otherwise. *)
Definition errorField {E} `{GoError E} (err : option E) : string :=
  match err with
  | None => "nil"
  | Some e => Error_text e
  end.

(** The [*slog.Logger] stored in the struct at [l], if both exist. *)
Definition loggerAt (σ : World) (l : loc) : option Slog.Logger :=
  match heap σ !! l with
  | Some s => logger s
  | None => None
  end.

(** A logger as [InitLogger] and the derivations produce them: the
    [logger] field is set and the handler's floor does not exceed the
    error level. *)
Definition usable (σ : World) (l : loc) : Prop :=
  exists lg, loggerAt σ l = Some lg /\
             (Slog.level (Slog.handler lg) <= Slog.LevelError)%Z.

(** The attribute group [InitLogger] attaches. *)
Definition goVersionOf {E} (env : Env E) : string :=
  match ReadBuildInfo env with
  | None => "unknown"
  | Some info => GoVersion info
  end.

Definition programInfo {E} (env : Env E) : Slog.Attr :=
  Slog.Group "program_info"
    [Slog.any_Attr (Slog.String "go_version" (goVersionOf env))].

(** The struct [InitLogger] stores once the sink is [out]. *)
Definition constructed {E} (env : Env E) (out : Os.Writer) (mode : LogLevel)
  : Slogger :=
  {| logger :=
       Some (Slog.New
               (Slog.WithAttrs (getHandlerForOutput out mode initOptions)
                  [programInfo env])) |}.

(** The diagnostic of a failed open, as [fmt.Sprintf] lays it out. *)
Definition openDiagnostic {E} `{GoError E} (output : string) (err : E) : string :=
  "error opening log file " +:+ output +:+ ": " +:+ Error_text err.

(** The filesystem requests a construction makes for [output]. *)
Definition openRequests (output : string) : list Os.OpenCall :=
  if String.eqb output "stdout" then []
  else if String.eqb output "stderr" then []
  else [{| Os.call_name := output; Os.call_flag := logFileFlag;
           Os.call_perm := logFilePerm |}].

(** The sink a construction resolves [output] to, or the error of the
    failed open. *)
Definition resolveSink {E} (env : Env E) (output : string) : Os.Writer + E :=
  if String.eqb output "stdout" then inl Os.Stdout
  else if String.eqb output "stderr" then inl Os.Stderr
  else match OpenFile env output logFileFlag logFilePerm with
       | inl file => inl (Os.FileWriter file)
       | inr err => inr err
       end.

(** The writer behind the logger at [l]. *)
Definition sinkAt (σ : World) (l : loc) : option Os.Writer :=
  match loggerAt σ l with
  | Some lg => Some (Slog.w (Slog.handler lg))
  | None => None
  end.

(** Going from [σ] to [σ'] allocated [child] and changed nothing else:
    [child] is a new address different from the receiver [l], every other
    address holds what it held, and nothing was opened or written. *)
Definition receiverUntouched (σ σ' : World) (l child : loc) : Prop :=
  child <> l /\
  heap σ !! child = None /\
  (forall l', l' <> child -> heap σ' !! l' = heap σ !! l') /\
  opens σ' = opens σ /\
  written σ' = written σ.

(** The computation [m] has the same outcome and leaves the same records
    behind whether it starts in [σ'] or in [σ]. *)
Definition sameOutput {A} (m : M A) (σ σ' : World) : Prop :=
  fst (m σ') = fst (m σ) /\ written (snd (m σ')) = written (snd (m σ)).

(** Every emission made through [l] behaves in [σ'] as it does in [σ]. *)
Definition emitsAsBefore {E} `{GoError E} (l : loc) (σ σ' : World) : Prop :=
  forall (msg : string) (args : list Slog.any),
    sameOutput (Debug l msg args) σ σ' /\
    sameOutput (Info l msg args) σ σ' /\
    sameOutput (Warn l msg args) σ σ' /\
    forall err : option E, sameOutput (Error l msg err args) σ σ'.

(** *** A sample environment and sample worlds *)

Definition sampleEnv : Env errorString :=
  {| OpenFile := fun name flag perm =>
       if String.eqb name "/var/log/app.log"
       then inl {| Os.Fd := 3; Os.Name := name |}
       else inr (errors_New ("open " +:+ name +:+ ": no such file or directory"));
     ReadBuildInfo := Some {| GoVersion := "go1.22.1" |} |}.

Definition emptyWorld : World := {| heap := ∅; opens := []; written := [] |}.

Definition sampleLogger : Slog.Logger :=
  Slog.New
    (Slog.WithAttrs
       (Slog.NewJSONHandler Os.Stdout {| Slog.Level_ := Slog.LevelInfo |})
       [programInfo sampleEnv]).

(** The world after [InitLogger(LevelInfo, "stdout")] on a fresh process;
    the logger sits at address 1. *)
Definition sampleWorld : World :=
  {| heap := {[ 1%positive := {| logger := Some sampleLogger |} ]};
     opens := []; written := [] |}.

(** *** Vocabulary for the remaining methods *)


(** The three level methods that take no error, with the [slog] level each
    one logs at. *)
Inductive LevelMethod := viaDebug | viaInfo | viaWarn.

Definition runMethod (k : LevelMethod)
  : loc -> string -> list Slog.any -> M unit :=
  match k with
  | viaDebug => Debug
  | viaInfo => Info
  | viaWarn => Warn
  end.

Definition methodLevel (k : LevelMethod) : Slog.Level :=
  match k with
  | viaDebug => Slog.LevelDebug
  | viaInfo => Slog.LevelInfo
  | viaWarn => Slog.LevelWarn
  end.

(** The record a handler of logger [lg] writes for a call at [lvl] with
    message [msg] whose attributes pair up to [fields]. *)
Definition recordOf (lg : Slog.Logger) (lvl : Slog.Level) (msg : string)
           (fields : list Slog.Attr) : Slog.Emission :=
  {| Slog.em_sink := Slog.w (Slog.handler lg);
     Slog.em_renderer := Slog.renderer (Slog.handler lg);
     Slog.em_level := lvl;
     Slog.em_msg := msg;
     Slog.em_attrs := Slog.attrs (Slog.handler lg) ++ fields |}.

(** A world whose only struct is the zero value [Slogger{}]. *)
Definition zeroValueWorld : World :=
  {| heap := {[ 1%positive := {| logger := None |} ]};
     opens := []; written := [] |}.



(** * Properties *)

(** ** Mode resolution *)

Module ModeResolverFacts.
Import ModeResolver.

Lemma ParseMode_dev : ParseMode "dev" = DevMode.
Proof. reflexivity. Qed.

Lemma ParseMode_not_dev raw : raw <> "dev" -> ParseMode raw = ProdMode.
Proof.
  intros Hne. unfold ParseMode, Mode_String, DevMode.
  apply String.eqb_neq in Hne. rewrite Hne.
  now destruct (String.eqb raw ProdMode).
Qed.

Lemma DevMode_neq_ProdMode : DevMode <> ProdMode.
Proof. discriminate. Qed.

(** Both results are among the two declared constants. *)
Lemma ParseMode_cases raw :
  (raw = "dev" /\ ParseMode raw = DevMode) \/
  (raw <> "dev" /\ ParseMode raw = ProdMode).
Proof.
  destruct (String.eqb_spec raw "dev") as [-> | Hne].
  - left. split; reflexivity.
  - right. split; [assumption | now apply ParseMode_not_dev].
Qed.

(** C1, as stated, asks that production be returned only for the literal
    ["prod"]; the empty string is already a production input that is not
    that literal. *)
Lemma ParseMode_prod_only_if_fails :
  ~ (ParseMode "" = ProdMode <-> "" = "prod").
Proof.
  intros [Hto _]. specialize (Hto eq_refl). discriminate Hto.
Qed.

(** C1 (amended): [ParseMode] is a total function whose result is always
    one of the two modes; it returns development if and only if the input
    is the literal ["dev"]; it returns production for the literal
    ["prod"] and for every other input as well (the empty string
    included), that is, if and only if the input is not ["dev"]. *)
Theorem ParseMode_spec (raw : string) :
  (ParseMode raw = DevMode \/ ParseMode raw = ProdMode) /\
  (ParseMode raw = DevMode <-> raw = "dev") /\
  (raw = "prod" -> ParseMode raw = ProdMode) /\
  (raw <> "dev" -> raw <> "prod" -> ParseMode raw = ProdMode) /\
  (ParseMode raw = ProdMode <-> raw <> "dev").
Proof.
  destruct (ParseMode_cases raw) as [[Heq Hres] | [Hne Hres]];
    rewrite Hres; (split; [auto |]).
  - subst raw. pose proof DevMode_neq_ProdMode as Hdiff.
    repeat split; intros; congruence.
  - pose proof DevMode_neq_ProdMode as Hdiff.
    repeat split; intros; congruence.
Qed.

Lemma ParseMode_spec_witness :
  ParseMode "prod" = ProdMode /\ ParseMode "" = ProdMode.
Proof.
  split.
  - apply (proj1 (proj2 (proj2 (ParseMode_spec "prod")))). reflexivity.
  - apply (proj1 (proj2 (proj2 (proj2 (ParseMode_spec ""))))); discriminate.
Defined.

(** C2: [ConvertLoggerMode] maps the development mode to the debug
    level, the production mode to the info level, and every other [Mode]
    value to the info level. *)
Theorem ConvertLoggerMode_spec :
  ConvertLoggerMode DevMode = LevelDebug /\
  ConvertLoggerMode ProdMode = LevelInfo /\
  (forall mode : Mode,
      mode <> DevMode -> mode <> ProdMode ->
      ConvertLoggerMode mode = LevelInfo).
Proof.
  split; [reflexivity | split; [reflexivity |]].
  intros mode Hdev Hprod. unfold ConvertLoggerMode.
  apply String.eqb_neq in Hdev. apply String.eqb_neq in Hprod.
  now rewrite Hdev, Hprod.
Qed.

Lemma ConvertLoggerMode_spec_witness :
  ConvertLoggerMode "staging" = LevelInfo.
Proof.
  apply (proj2 (proj2 ConvertLoggerMode_spec) "staging"); discriminate.
Defined.

Lemma resolve_cases (s : string) :
  (s = "dev" /\ ConvertLoggerMode (ParseMode s) = LevelDebug) \/
  (s <> "dev" /\ ConvertLoggerMode (ParseMode s) = LevelInfo).
Proof.
  destruct (ParseMode_cases s) as [[Heq Hres] | [Hne Hres]]; rewrite Hres.
  - left. split; [assumption | reflexivity].
  - right. split; [assumption | reflexivity].
Qed.

End ModeResolverFacts.

(** ** Running the monad *)

Lemma bind_Returned {A B} (m : M A) (f : A -> M B) σ a σ' :
  m σ = (Returned a, σ') -> (m ≫= f) σ = f a σ'.
Proof. intros Hm. unfold mbind, M_bind. now rewrite Hm. Qed.

Lemma bind_Panicked {A B} (m : M A) (f : A -> M B) σ v σ' :
  m σ = (Panicked v, σ') -> (m ≫= f) σ = (Panicked v, σ').
Proof. intros Hm. unfold mbind, M_bind. now rewrite Hm. Qed.

Lemma deref_Some σ l s : heap σ !! l = Some s -> deref l σ = (Returned s, σ).
Proof. intros Hl. unfold deref. now rewrite Hl. Qed.

Lemma deref_None σ l :
  heap σ !! l = None -> deref l σ = (Panicked nilDereference, σ).
Proof. intros Hl. unfold deref. now rewrite Hl. Qed.

Lemma loggerAt_Some σ l lg :
  loggerAt σ l = Some lg ->
  exists s, heap σ !! l = Some s /\ logger s = Some lg.
Proof.
  unfold loggerAt. destruct (heap σ !! l) as [s |]; [| discriminate].
  intros Hs. now exists s.
Qed.

Lemma fresh_not_allocated (σ : World) : heap σ !! fresh (dom (heap σ)) = None.
Proof. apply not_elem_of_dom, is_fresh. Qed.

(** ** Handler selection *)

Lemma getHandlerForOutput_cases (output : Os.Writer) (mode : LogLevel)
      (options : Tint.Options) :
  (mode = LevelDebug /\
   getHandlerForOutput output mode options = Tint.NewHandler output options) \/
  (In mode [LevelInfo; LevelWarn; LevelError] /\
   getHandlerForOutput output mode options =
     Slog.NewJSONHandler output {| Slog.Level_ := floorOf mode |}) \/
  (~ In mode [LevelDebug; LevelInfo; LevelWarn; LevelError] /\
   getHandlerForOutput output mode options = Tint.NewHandler output options).
Proof.
  unfold getHandlerForOutput, floorOf.
  destruct (Z.eqb_spec mode LevelDebug) as [-> | Hd]; [left; now split |].
  destruct (Z.eqb_spec mode LevelInfo) as [-> | Hi].
  { right; left. split; [simpl; tauto | reflexivity]. }
  destruct (Z.eqb_spec mode LevelWarn) as [-> | Hw].
  { right; left. split; [simpl; tauto | reflexivity]. }
  destruct (Z.eqb_spec mode LevelError) as [-> | He].
  { right; left. split; [simpl; tauto | reflexivity]. }
  right; right. split; [| reflexivity].
  simpl. intros [H | [H | [H | [H | []]]]]; congruence.
Qed.

(** Whatever the level, the selected handler writes to the given writer. *)
Lemma getHandlerForOutput_w (output : Os.Writer) (mode : LogLevel)
      (options : Tint.Options) :
  Slog.w (getHandlerForOutput output mode options) = output.
Proof.
  destruct (getHandlerForOutput_cases output mode options)
    as [[_ Hh] | [[_ Hh] | [_ Hh]]]; now rewrite Hh.
Qed.

(** C3: for every level and writer, [getHandlerForOutput] (the handler
    selection of [InitLogger]) returns the colourised [tint] handler for
    the debug level; for info, warn and error it returns the JSON handler
    on the same writer whose floor is the level of the same name, so that
    exactly the records at or above that level are enabled; every other
    level value gets the [tint] handler. *)
Theorem getHandlerForOutput_spec (output : Os.Writer) (mode : LogLevel) :
  let h := getHandlerForOutput output mode initOptions in
  Slog.w h = output /\
  (mode = LevelDebug ->
   h = Tint.NewHandler output initOptions /\
   Slog.renderer h = Slog.TintText time_Kitchen false) /\
  (mode = LevelInfo \/ mode = LevelWarn \/ mode = LevelError ->
   h = Slog.NewJSONHandler output {| Slog.Level_ := floorOf mode |} /\
   Slog.renderer h = Slog.JSON /\
   Slog.level h = floorOf mode /\
   forall lvl, Slog.Enabled h lvl = true <-> (floorOf mode <= lvl)%Z) /\
  (mode <> LevelDebug -> mode <> LevelInfo -> mode <> LevelWarn ->
   mode <> LevelError ->
   h = Tint.NewHandler output initOptions /\
   Slog.renderer h = Slog.TintText time_Kitchen false).
Proof.
  intros h. subst h.
  destruct (getHandlerForOutput_cases output mode initOptions)
    as [[Hm Hh] | [[Hm Hh] | [Hm Hh]]]; rewrite Hh; simpl in Hm;
    (split; [reflexivity |]); (split; [| split]).
  - intros _. split; reflexivity.
  - subst mode. intros [Hk | [Hk | Hk]]; discriminate Hk.
  - intros Hd. congruence.
  - intros ->. destruct Hm as [Hk | [Hk | [Hk | []]]]; discriminate Hk.
  - intros _. split; [reflexivity | split; [reflexivity | split]].
    + reflexivity.
    + intros lvl. unfold Slog.Enabled. simpl. apply Z.leb_le.
  - intros Hd Hi Hw He.
    destruct Hm as [Hk | [Hk | [Hk | []]]]; congruence.
  - intros ->. tauto.
  - intros [-> | [-> | ->]]; tauto.
  - intros _ _ _ _. split; reflexivity.
Qed.

Lemma getHandlerForOutput_spec_witness :
  Slog.level (getHandlerForOutput Os.Stderr LevelWarn initOptions)
    = Slog.LevelWarn /\
  Slog.renderer (getHandlerForOutput Os.Stderr 17 initOptions)
    = Slog.TintText time_Kitchen false.
Proof.
  split.
  - apply (proj1 (proj2 (proj2
      (getHandlerForOutput_spec Os.Stderr LevelWarn)))).
    right; left; reflexivity.
  - apply (proj2 (proj2 (proj2
      (getHandlerForOutput_spec Os.Stderr 17)))); discriminate.
Defined.

(** C9: the level resolved from a mode string is the debug level exactly
    for ["dev"] and the info level for every other string; it is never the
    warn or the error level, so construction from a mode string selects
    either the [tint] handler or the JSON handler with the info floor. *)
Theorem resolved_level_spec (s : string) :
  let lvl := ModeResolver.ConvertLoggerMode (ModeResolver.ParseMode s) in
  (lvl = LevelDebug <-> s = "dev") /\
  (s <> "dev" -> lvl = LevelInfo) /\
  lvl <> LevelWarn /\
  lvl <> LevelError /\
  (forall output : Os.Writer,
      (s = "dev" ->
       getHandlerForOutput output lvl initOptions
         = Tint.NewHandler output initOptions) /\
      (s <> "dev" ->
       getHandlerForOutput output lvl initOptions
         = Slog.NewJSONHandler output {| Slog.Level_ := Slog.LevelInfo |})).
Proof.
  intros lvl. subst lvl.
  destruct (ModeResolverFacts.resolve_cases s) as [[Hs Hl] | [Hs Hl]];
    rewrite Hl.
  - split; [tauto |]. split; [tauto |].
    split; [discriminate |]. split; [discriminate |].
    intros output. split; [reflexivity | tauto].
  - split; [split; [discriminate | tauto] |]. split; [reflexivity |].
    split; [discriminate |]. split; [discriminate |].
    intros output. split; [tauto | reflexivity].
Qed.

Lemma resolved_level_spec_witness :
  ModeResolver.ConvertLoggerMode (ModeResolver.ParseMode "production")
    = LevelInfo /\
  getHandlerForOutput Os.Stdout
    (ModeResolver.ConvertLoggerMode (ModeResolver.ParseMode "dev")) initOptions
    = Tint.NewHandler Os.Stdout initOptions.
Proof.
  split.
  - apply (proj1 (proj2 (resolved_level_spec "production"))). discriminate.
  - apply (proj1 (proj2 (proj2 (proj2 (proj2 (resolved_level_spec "dev"))))
                   Os.Stdout)).
    reflexivity.
Defined.

(** ** Construction *)

Section Construction.

Context {E : Type} {E_error : GoError E}.
Variable env : Env E.

(** [InitLogger] in one step: resolve the sink, then either panic with
    the diagnostic or allocate the logger. *)
Lemma InitLogger_run (mode : LogLevel) (output : string) (σ : World) :
  InitLogger env mode output σ =
  match resolveSink env output with
  | inl out =>
      let l := fresh (dom (heap σ)) in
      (Returned l,
       {| heap := <[l := constructed env out mode]> (heap σ);
          opens := opens σ ++ openRequests output;
          written := written σ |})
  | inr err =>
      (Panicked (openDiagnostic output err),
       {| heap := heap σ;
          opens := opens σ ++ openRequests output;
          written := written σ |})
  end.
Proof.
  destruct σ as [hp ops wr].
  unfold InitLogger, resolveSink, openRequests, constructed, programInfo,
    goVersionOf.
  destruct (String.eqb output "stdout").
  { simpl. rewrite app_nil_r.
    unfold mbind, M_bind, mret, M_ret, alloc; simpl.
    now destruct (ReadBuildInfo env). }
  destruct (String.eqb output "stderr").
  { simpl. rewrite app_nil_r.
    unfold mbind, M_bind, mret, M_ret, alloc; simpl.
    now destruct (ReadBuildInfo env). }
  unfold mbind, M_bind, mret, M_ret, alloc, os_OpenFile, panic; simpl.
  fold logFileFlag. fold logFilePerm.
  destruct (OpenFile env output logFileFlag logFilePerm) as [file | err].
  - simpl. now destruct (ReadBuildInfo env).
  - reflexivity.
Qed.

Lemma resolveSink_stdout : resolveSink env "stdout" = inl Os.Stdout.
Proof. reflexivity. Qed.

Lemma resolveSink_stderr : resolveSink env "stderr" = inl Os.Stderr.
Proof. reflexivity. Qed.

Lemma resolveSink_path (output : string) :
  output <> "stdout" -> output <> "stderr" ->
  resolveSink env output =
    match OpenFile env output logFileFlag logFilePerm with
    | inl file => inl (Os.FileWriter file)
    | inr err => inr err
    end /\
  openRequests output =
    [{| Os.call_name := output; Os.call_flag := logFileFlag;
        Os.call_perm := logFilePerm |}].
Proof.
  intros Hout Herr. unfold resolveSink, openRequests.
  apply String.eqb_neq in Hout. apply String.eqb_neq in Herr.
  now rewrite Hout, Herr.
Qed.

Lemma sinkAt_constructed (σ : World) (l : loc) out mode ops wr :
  sinkAt {| heap := <[l := constructed env out mode]> (heap σ);
            opens := ops; written := wr |} l = Some out.
Proof.
  unfold sinkAt, loggerAt. simpl. rewrite lookup_insert_eq. simpl.
  now rewrite getHandlerForOutput_w.
Qed.

(** The flag word asks for write-only, create and append, and neither
    for truncation nor for exclusive creation; the permission bits give
    the owner every right. *)
Lemma logFile_mode :
  requests logFileFlag Os.O_WRONLY = true /\
  requests logFileFlag Os.O_CREATE = true /\
  requests logFileFlag Os.O_APPEND = true /\
  requests logFileFlag Os.O_TRUNC = false /\
  requests logFileFlag Os.O_EXCL = false /\
  Z.land logFilePerm ownerAll = ownerAll.
Proof. repeat split. Qed.

(** C4: the literals ["stdout"] and ["stderr"] make [InitLogger] return
    a logger on the corresponding standard stream without any request to
    the filesystem; every other string is handed to [os.OpenFile] as a
    path, exactly once, with the flags write-only, create and append and
    the permission bits [0755], and on success the logger writes to the
    opened file. *)
Theorem InitLogger_sink (mode : LogLevel) (output : string) (σ : World) :
  (output = "stdout" ->
   exists l σ', InitLogger env mode output σ = (Returned l, σ') /\
                opens σ' = opens σ /\ sinkAt σ' l = Some Os.Stdout) /\
  (output = "stderr" ->
   exists l σ', InitLogger env mode output σ = (Returned l, σ') /\
                opens σ' = opens σ /\ sinkAt σ' l = Some Os.Stderr) /\
  (output <> "stdout" -> output <> "stderr" ->
   opens (snd (InitLogger env mode output σ)) =
     (opens σ ++ [{| Os.call_name := output;
                     Os.call_flag :=
                       Z.lor (Z.lor Os.O_WRONLY Os.O_CREATE) Os.O_APPEND;
                     Os.call_perm := 493 |}])%list /\
   requests logFileFlag Os.O_WRONLY = true /\
   requests logFileFlag Os.O_CREATE = true /\
   requests logFileFlag Os.O_APPEND = true /\
   requests logFileFlag Os.O_TRUNC = false /\
   Z.land logFilePerm ownerAll = ownerAll /\
   forall file,
     OpenFile env output logFileFlag logFilePerm = inl file ->
     exists l σ', InitLogger env mode output σ = (Returned l, σ') /\
                  sinkAt σ' l = Some (Os.FileWriter file)).
Proof.
  split; [| split].
  - intros ->. rewrite InitLogger_run, resolveSink_stdout.
    eexists _, _. split; [reflexivity |]. split.
    + simpl. apply app_nil_r.
    + apply sinkAt_constructed.
  - intros ->. rewrite InitLogger_run, resolveSink_stderr.
    eexists _, _. split; [reflexivity |]. split.
    + simpl. apply app_nil_r.
    + apply sinkAt_constructed.
  - intros Hout Herr.
    destruct (resolveSink_path output Hout Herr) as [Hsink Hreq].
    rewrite InitLogger_run, Hsink.
    destruct logFile_mode as (Hw & Hc & Ha & Ht & _ & Hp).
    repeat (split; [first [assumption | idtac] |]).
    + destruct (OpenFile env output logFileFlag logFilePerm);
        simpl; now rewrite Hreq.
    + intros file Hopen. rewrite Hopen.
      eexists _, _. split; [reflexivity |]. apply sinkAt_constructed.
Qed.

(** C5: when the output is not a sentinel and the open fails,
    [InitLogger] panics instead of returning a logger; the panic value
    names the path and the text of the underlying error, and no logger
    was allocated and no record written. Conversely a panic of
    [InitLogger] can only be this one: no other step of the construction
    fails. *)
Theorem InitLogger_open_failure (mode : LogLevel) (output : string)
        (σ : World) :
  (forall err : E,
      output <> "stdout" -> output <> "stderr" ->
      OpenFile env output logFileFlag logFilePerm = inr err ->
      exists σ',
        InitLogger env mode output σ =
          (Panicked ("error opening log file " +:+ output +:+ ": "
                       +:+ Error_text err), σ') /\
        heap σ' = heap σ /\ written σ' = written σ) /\
  (forall (v : string) (σ' : World),
      InitLogger env mode output σ = (Panicked v, σ') ->
      output <> "stdout" /\ output <> "stderr" /\
      exists err : E,
        OpenFile env output logFileFlag logFilePerm = inr err /\
        v = "error opening log file " +:+ output +:+ ": " +:+ Error_text err).
Proof.
  split.
  - intros err Hout Herr Hopen.
    destruct (resolveSink_path output Hout Herr) as [Hsink _].
    rewrite InitLogger_run, Hsink, Hopen.
    eexists. split; [reflexivity |]. split; reflexivity.
  - intros v σ'. rewrite InitLogger_run.
    destruct (String.eqb_spec output "stdout") as [-> | Hout].
    { rewrite resolveSink_stdout. discriminate. }
    destruct (String.eqb_spec output "stderr") as [-> | Herr].
    { rewrite resolveSink_stderr. discriminate. }
    destruct (resolveSink_path output Hout Herr) as [Hsink _].
    rewrite Hsink.
    destruct (OpenFile env output logFileFlag logFilePerm) as [file | err];
      [discriminate |].
    intros Hrun. injection Hrun as <- _.
    split; [assumption |]. split; [assumption |].
    exists err. split; reflexivity.
Qed.

(** The handler of a constructed logger is the selected one with the
    program information attached. *)
Lemma InitLogger_handler (mode : LogLevel) (output : string)
      (σ σ' : World) (l : loc) :
  InitLogger env mode output σ = (Returned l, σ') ->
  exists out,
    resolveSink env output = inl out /\
    loggerAt σ' l =
      Some (Slog.New
              (Slog.WithAttrs (getHandlerForOutput out mode initOptions)
                 [programInfo env])).
Proof.
  rewrite InitLogger_run.
  destruct (resolveSink env output) as [out | err]; [| discriminate].
  simpl. intros Hrun. injection Hrun as <- <-.
  exists out. split; [reflexivity |].
  unfold loggerAt. simpl. now rewrite lookup_insert_eq.
Qed.

(** A construction that returns leaves a usable logger at a new address
    and keeps every logger that was usable. *)
Lemma InitLogger_usable (mode : LogLevel) (output : string)
      (σ σ' : World) (l : loc) :
  InitLogger env mode output σ = (Returned l, σ') ->
  heap σ !! l = None /\ usable σ' l /\
  forall l', usable σ l' -> usable σ' l'.
Proof.
  rewrite InitLogger_run.
  destruct (resolveSink env output) as [out | err]; [| discriminate].
  simpl. intros Hrun. injection Hrun as <- <-.
  split; [apply fresh_not_allocated |]. split.
  - eexists. unfold loggerAt. simpl. rewrite lookup_insert_eq. simpl.
    split; [reflexivity |]. simpl.
    destruct (getHandlerForOutput_cases out mode initOptions)
      as [[_ Hh] | [[Hm Hh] | [_ Hh]]]; rewrite Hh; simpl;
      [discriminate | | discriminate].
    simpl in Hm.
    destruct Hm as [<- | [<- | [<- | []]]]; discriminate.
  - intros l' (lg & Hl & Hfloor). exists lg. split; [| assumption].
    unfold loggerAt in *. simpl.
    destruct (decide (fresh (dom (heap σ)) = l')) as [<- | Hne].
    + rewrite fresh_not_allocated in Hl. discriminate.
    + now rewrite lookup_insert_ne.
Qed.

End Construction.

Lemma InitLogger_sink_witness :
  exists l σ', InitLogger sampleEnv LevelInfo "stdout" emptyWorld
                 = (Returned l, σ') /\
               opens σ' = opens emptyWorld /\
               sinkAt σ' l = Some Os.Stdout.
Proof.
  apply (proj1 (InitLogger_sink sampleEnv LevelInfo "stdout" emptyWorld)).
  reflexivity.
Defined.

Lemma InitLogger_open_failure_witness :
  exists σ',
    InitLogger sampleEnv LevelWarn "/nonexistent/app.log" emptyWorld =
      (Panicked "error opening log file /nonexistent/app.log: open /nonexistent/app.log: no such file or directory",
       σ') /\
    heap σ' = heap emptyWorld /\ written σ' = written emptyWorld.
Proof.
  refine (proj1 (InitLogger_open_failure sampleEnv LevelWarn
                   "/nonexistent/app.log" emptyWorld)
            (errors_New "open /nonexistent/app.log: no such file or directory")
            _ _ _);
    [discriminate | discriminate | reflexivity].
Defined.

(** The sample world is what a construction on standard output yields. *)
Lemma sampleWorld_constructed :
  InitLogger sampleEnv LevelInfo "stdout" emptyWorld
    = (Returned 1%positive, sampleWorld).
Proof. vm_compute. reflexivity. Qed.

(** ** Pairing of variadic arguments *)

(** The structural definition of [argsToAttrSlice] is the loop over
    [argsToAttr]. *)
Lemma argsToAttrSlice_step (args : list Slog.any) :
  match Slog.argsToAttr args with
  | None => args = [] /\ Slog.argsToAttrSlice args = []
  | Some (a, rest) => Slog.argsToAttrSlice args = a :: Slog.argsToAttrSlice rest
  end.
Proof.
  destruct args as [| x rest]; [now split |].
  destruct x; try reflexivity.
  destruct rest; reflexivity.
Qed.

(** An attribute appended to a list without a dangling key is paired on
    its own. Proved for [args] and [x :: args] together, since a key
    consumes two arguments. *)
Lemma argsToAttrSlice_snoc_both (a : Slog.Attr) (args : list Slog.any) :
  (danglingKey args = false ->
   Slog.argsToAttrSlice (args ++ [Slog.any_Attr a])
     = Slog.argsToAttrSlice args ++ [a]) /\
  (forall x, danglingKey (x :: args) = false ->
   Slog.argsToAttrSlice ((x :: args) ++ [Slog.any_Attr a])
     = Slog.argsToAttrSlice (x :: args) ++ [a]).
Proof.
  induction args as [| y args [IHargs IHcons]].
  - split; [reflexivity |].
    intros x Hx. destruct x; simpl in *; try reflexivity. discriminate.
  - split; [apply IHcons |].
    intros x Hx. destruct x; simpl in Hx |- *;
      try (f_equal; apply (IHcons y Hx)).
    f_equal. now apply IHargs.
Qed.

Lemma argsToAttrSlice_snoc_Attr (a : Slog.Attr) (args : list Slog.any) :
  danglingKey args = false ->
  Slog.argsToAttrSlice (args ++ [Slog.any_Attr a])
    = Slog.argsToAttrSlice args ++ [a].
Proof. apply argsToAttrSlice_snoc_both. Qed.

Lemma argsToAttrSlice_value (x : Slog.any) (rest : list Slog.any) :
  isKey x = false ->
  Slog.argsToAttrSlice (x :: rest) = loneAttr x :: Slog.argsToAttrSlice rest.
Proof. destruct x; try discriminate; reflexivity. Qed.

Lemma danglingKey_value (x : Slog.any) (rest : list Slog.any) :
  isKey x = false -> danglingKey (x :: rest) = danglingKey rest.
Proof. destruct x; try discriminate; reflexivity. Qed.

(** With a dangling key the appended attribute becomes that key's value. *)
Lemma argsToAttrSlice_snoc_dangling_both (a : Slog.Attr) (args : list Slog.any) :
  (danglingKey args = true ->
   exists pre k,
     args = pre ++ [Slog.any_string k] /\ danglingKey pre = false /\
     Slog.argsToAttrSlice (args ++ [Slog.any_Attr a])
       = Slog.argsToAttrSlice pre ++ [Slog.Any k (Slog.any_Attr a)]) /\
  (forall x, danglingKey (x :: args) = true ->
   exists pre k,
     x :: args = pre ++ [Slog.any_string k] /\ danglingKey pre = false /\
     Slog.argsToAttrSlice ((x :: args) ++ [Slog.any_Attr a])
       = Slog.argsToAttrSlice pre ++ [Slog.Any k (Slog.any_Attr a)]).
Proof.
  induction args as [| y args [IHargs IHcons]].
  - split; [discriminate |].
    intros x Hx. destruct x; simpl in Hx; try discriminate.
    exists [], s. repeat split.
  - split; [apply IHcons |].
    intros x Hx. destruct (isKey x) eqn:Hkey.
    + destruct x; try discriminate Hkey.
      change (danglingKey args = true) in Hx.
      destruct (IHargs Hx) as (pre & k & Heq & Hpre & Hslice).
      exists (Slog.any_string s :: y :: pre), k.
      split; [rewrite Heq; reflexivity |].
      split; [exact Hpre |].
      change (Slog.Any s y :: Slog.argsToAttrSlice (args ++ [Slog.any_Attr a])
              = Slog.Any s y
                  :: (Slog.argsToAttrSlice pre
                        ++ [Slog.Any k (Slog.any_Attr a)])).
      now rewrite Hslice.
    + rewrite danglingKey_value in Hx by assumption.
      destruct (IHcons y Hx) as (pre & k & Heq & Hpre & Hslice).
      exists (x :: pre), k.
      split; [rewrite Heq; reflexivity |].
      split; [now rewrite danglingKey_value |].
      change ((x :: y :: args) ++ [Slog.any_Attr a])
        with (x :: ((y :: args) ++ [Slog.any_Attr a])).
      rewrite !argsToAttrSlice_value by assumption.
      now rewrite Hslice.
Qed.

Lemma argsToAttrSlice_snoc_dangling (a : Slog.Attr) (args : list Slog.any) :
  danglingKey args = true ->
  exists pre k,
    args = pre ++ [Slog.any_string k] /\ danglingKey pre = false /\
    Slog.argsToAttrSlice (args ++ [Slog.any_Attr a])
      = Slog.argsToAttrSlice pre ++ [Slog.Any k (Slog.any_Attr a)].
Proof. apply argsToAttrSlice_snoc_dangling_both. Qed.

(** ** Emission *)

Section Emission.

Context {E : Type} {E_error : GoError E}.

(** The shape shared by the four level methods. *)
Lemma level_method_run (σ : World) (l : loc) (lg : Slog.Logger)
      (lvl : Slog.Level) (msg : string) (args : list Slog.any) :
  loggerAt σ l = Some lg ->
  (s ← deref l; Logger_log_ptr (logger s) lvl msg args) σ =
    (Returned tt,
     {| heap := heap σ; opens := opens σ;
        written := written σ ++ Slog.Logger_log lg lvl msg args |}).
Proof.
  intros Hl. apply loggerAt_Some in Hl as (s & Hs & Hlg).
  rewrite (bind_Returned _ _ σ s σ (deref_Some σ l s Hs)).
  rewrite Hlg. reflexivity.
Qed.

(** A level method only looks at the struct behind its receiver and adds
    to the records already written. *)
Lemma level_method_sameOutput (σ σ' : World) (l : loc) (lvl : Slog.Level)
      (msg : string) (args : list Slog.any) :
  heap σ' !! l = heap σ !! l -> written σ' = written σ ->
  sameOutput (s ← deref l; Logger_log_ptr (logger s) lvl msg args) σ σ'.
Proof.
  intros Hheap Hwr. unfold sameOutput, mbind, M_bind, deref.
  rewrite Hheap. destruct (heap σ !! l) as [s |]; [| now split].
  unfold Logger_log_ptr. destruct (logger s) as [lg |]; simpl; [| now split].
  split; [reflexivity | now rewrite Hwr].
Qed.

Lemma Error_unfold (l : loc) (msg : string) (err : option E)
      (attributes : list Slog.any) :
  Error l msg err attributes =
    (s ← deref l;
     Logger_log_ptr (logger s) Slog.LevelError msg
       (attributes ++ [Slog.any_Attr (Slog.String "error" (errorField err))])).
Proof. destruct err; reflexivity. Qed.

Lemma emitsAsBefore_of_same_struct (σ σ' : World) (l : loc) :
  heap σ' !! l = heap σ !! l -> written σ' = written σ ->
  emitsAsBefore (E := E) l σ σ'.
Proof.
  intros Hheap Hwr msg args.
  repeat split; try (now apply level_method_sameOutput);
    rewrite Error_unfold; now apply level_method_sameOutput.
Qed.

(** C6 (amended): on a logger whose floor does not exceed the error
    level (every constructed logger), and for every message and every
    attribute list that does not end in a key without a value,
    [Error(msg, err, attrs...)] returns after writing exactly one record,
    at error severity, to the logger's sink; the record carries the
    attached attributes, then those of the list, then one more attribute
    under the key ["error"], whose value is the string ["nil"] when
    [err] is nil and the message of [err] otherwise. *)
Theorem Error_emits (σ : World) (l : loc) (lg : Slog.Logger) (msg : string)
        (err : option E) (attributes : list Slog.any) :
  loggerAt σ l = Some lg ->
  (Slog.level (Slog.handler lg) <= Slog.LevelError)%Z ->
  danglingKey attributes = false ->
  Error l msg err attributes σ =
    (Returned tt,
     {| heap := heap σ; opens := opens σ;
        written :=
          written σ ++
          [{| Slog.em_sink := Slog.w (Slog.handler lg);
              Slog.em_renderer := Slog.renderer (Slog.handler lg);
              Slog.em_level := Slog.LevelError;
              Slog.em_msg := msg;
              Slog.em_attrs :=
                Slog.attrs (Slog.handler lg)
                ++ List.filter Slog.keepAttr (Slog.argsToAttrSlice attributes)
                ++ [Slog.String "error"
                      match err with
                      | None => "nil"
                      | Some e => Error_text e
                      end] |}] |}).
Proof.
  intros Hl Hfloor Hargs.
  rewrite Error_unfold, (level_method_run σ l lg) by assumption.
  unfold Slog.Logger_log, Slog.Enabled.
  apply Z.leb_le in Hfloor. rewrite Hfloor.
  unfold Slog.Handle, Slog.Record_Add, Slog.NewRecord. simpl.
  rewrite argsToAttrSlice_snoc_Attr by assumption.
  rewrite List.filter_app. simpl.
  unfold errorField. reflexivity.
Qed.

(** C7: [LogAndReturnError] leaves the world exactly as [Error] with the
    same arguments does; on a logger whose [logger] field is set both
    return, and [LogAndReturnError] returns the very [err] it was given,
    nil or not. *)
Theorem LogAndReturnError_spec (σ : World) (l : loc) (msg : string)
        (err : option E) (attributes : list Slog.any) :
  snd (LogAndReturnError l msg err attributes σ)
    = snd (Error l msg err attributes σ) /\
  (forall lg, loggerAt σ l = Some lg ->
     exists σ',
       Error l msg err attributes σ = (Returned tt, σ') /\
       LogAndReturnError l msg err attributes σ = (Returned err, σ')).
Proof.
  split.
  - unfold LogAndReturnError, mbind, M_bind.
    destruct (Error l msg err attributes σ) as [[[] | v] σ']; reflexivity.
  - intros lg Hl. eexists.
    assert (Hrun := level_method_run σ l lg Slog.LevelError msg
               (attributes
                  ++ [Slog.any_Attr (Slog.String "error" (errorField err))])
               Hl).
    rewrite <- Error_unfold in Hrun.
    split; [exact Hrun |].
    unfold LogAndReturnError.
    now rewrite (bind_Returned _ _ _ _ _ Hrun).
Qed.

End Emission.

(** C6, as stated for every attribute list, fails on the sample logger:
    with the lone key ["request_id"] as attribute list, the record written
    by [Error] has no attribute under the key ["error"]; the appended
    attribute became the value of ["request_id"]. *)
Lemma Error_dangling_key_counterexample :
  ~ (exists e,
        written (snd (Error 1%positive "boom" (Some (errors_New "disk full"))
                        [Slog.any_string "request_id"] sampleWorld)) = [e] /\
        hasKey "error" (Slog.em_attrs e) = true).
Proof.
  intros (e & Hwr & Hkey).
  vm_compute in Hwr. injection Hwr as <-.
  vm_compute in Hkey. discriminate Hkey.
Qed.

(** What that record holds instead. *)
Lemma Error_dangling_key_record :
  written (snd (Error 1%positive "boom" (Some (errors_New "disk full"))
                  [Slog.any_string "request_id"] sampleWorld)) =
    [{| Slog.em_sink := Os.Stdout;
        Slog.em_renderer := Slog.JSON;
        Slog.em_level := Slog.LevelError;
        Slog.em_msg := "boom";
        Slog.em_attrs :=
          [programInfo sampleEnv;
           Slog.mkAttr "request_id"
             (Slog.KindAny
                (Slog.any_Attr (Slog.String "error" "disk full")))] |}].
Proof. vm_compute. reflexivity. Qed.

Lemma Error_emits_witness :
  Error 1%positive "boom" (Some (errors_New "disk full"))
    [Slog.any_string "request_id"; Slog.any_int 42] sampleWorld =
  (Returned tt,
   {| heap := heap sampleWorld; opens := [];
      written :=
        [{| Slog.em_sink := Os.Stdout;
            Slog.em_renderer := Slog.JSON;
            Slog.em_level := Slog.LevelError;
            Slog.em_msg := "boom";
            Slog.em_attrs :=
              [programInfo sampleEnv;
               Slog.mkAttr "request_id" (Slog.KindInt64 42);
               Slog.String "error" "disk full"] |}] |}).
Proof.
  refine (Error_emits sampleWorld 1%positive sampleLogger "boom"
            (Some (errors_New "disk full"))
            [Slog.any_string "request_id"; Slog.any_int 42] _ _ _).
  - reflexivity.
  - vm_compute. discriminate.
  - reflexivity.
Defined.

Lemma LogAndReturnError_spec_witness :
  exists σ',
    Error 1%positive "boom" (Some (errors_New "disk full")) [] sampleWorld
      = (Returned tt, σ') /\
    LogAndReturnError 1%positive "boom" (Some (errors_New "disk full")) []
      sampleWorld = (Returned (Some (errors_New "disk full")), σ').
Proof.
  refine (proj2 (LogAndReturnError_spec sampleWorld 1%positive "boom"
                   (Some (errors_New "disk full")) []) sampleLogger _).
  reflexivity.
Defined.

(** ** Derivation *)

Section Derivation.

Context {E : Type} {E_error : GoError E}.

Lemma With_run (σ : World) (l : loc) (lg : Slog.Logger)
      (attributes : list Slog.any) :
  loggerAt σ l = Some lg ->
  With l attributes σ =
    (Returned (fresh (dom (heap σ))),
     {| heap := <[fresh (dom (heap σ)) :=
                    {| logger := Some (Slog.Logger_With lg attributes) |}]>
                  (heap σ);
        opens := opens σ; written := written σ |}).
Proof.
  intros Hl. apply loggerAt_Some in Hl as (s & Hs & Hlg).
  unfold With.
  rewrite (bind_Returned _ _ σ s σ (deref_Some σ l s Hs)), Hlg.
  destruct attributes; reflexivity.
Qed.

(** Allocating one more struct leaves the receiver as it was. *)
Lemma alloc_receiverUntouched (σ : World) (l : loc) (lg : Slog.Logger)
      (s' : Slogger) :
  loggerAt σ l = Some lg ->
  let child := fresh (dom (heap σ)) in
  let σ' := {| heap := <[child := s']> (heap σ);
               opens := opens σ; written := written σ |} in
  receiverUntouched σ σ' l child /\
  loggerAt σ' l = Some lg /\
  loggerAt σ' child = logger s' /\
  emitsAsBefore (E := E) l σ σ'.
Proof.
  intros Hl child σ'.
  assert (Hfresh : heap σ !! child = None) by apply fresh_not_allocated.
  assert (Hne : child <> l).
  { intros ->. unfold loggerAt in Hl. now rewrite Hfresh in Hl. }
  assert (Hkept : heap σ' !! l = heap σ !! l)
    by (subst σ'; simpl; now rewrite lookup_insert_ne).
  split; [| split; [| split]].
  - repeat split; try assumption.
    intros l' Hl'. subst σ'. simpl. now rewrite lookup_insert_ne.
  - unfold loggerAt. now rewrite Hkept.
  - unfold loggerAt. subst σ'. simpl. now rewrite lookup_insert_eq.
  - now apply emitsAsBefore_of_same_struct.
Qed.

(** C8: [With] and [WithOperation] return a newly allocated instance
    that holds the extended logger, and leave the receiver as it was:
    its struct is unchanged, and every emission made through it
    afterwards has the outcome and writes the records it would have
    without the derivation. *)
Theorem derivation_leaves_receiver (σ : World) (l : loc) (lg : Slog.Logger)
        (attributes : list Slog.any) (operation : string) :
  loggerAt σ l = Some lg ->
  (exists child σ',
      With l attributes σ = (Returned child, σ') /\
      receiverUntouched σ σ' l child /\
      loggerAt σ' l = Some lg /\
      loggerAt σ' child = Some (Slog.Logger_With lg attributes) /\
      emitsAsBefore (E := E) l σ σ') /\
  (exists child σ',
      WithOperation l operation σ = (Returned child, σ') /\
      receiverUntouched σ σ' l child /\
      loggerAt σ' l = Some lg /\
      loggerAt σ' child =
        Some (Slog.New
                (Slog.WithAttrs (Slog.handler lg)
                   [Slog.String "operation" operation])) /\
      emitsAsBefore (E := E) l σ σ').
Proof.
  intros Hl. split.
  - eexists _, _. split; [exact (With_run σ l lg attributes Hl) |].
    destruct (alloc_receiverUntouched σ l lg
                {| logger := Some (Slog.Logger_With lg attributes) |} Hl)
      as (Hun & Hrecv & Hchild & Hemit).
    split; [exact Hun |]. split; [exact Hrecv |].
    split; [exact Hchild | exact Hemit].
  - eexists _, _.
    split; [exact (With_run σ l lg
                     [Slog.any_Attr (Slog.String "operation" operation)] Hl) |].
    destruct (alloc_receiverUntouched σ l lg
                {| logger :=
                     Some (Slog.Logger_With lg
                             [Slog.any_Attr
                                (Slog.String "operation" operation)]) |} Hl)
      as (Hun & Hrecv & Hchild & Hemit).
    split; [exact Hun |]. split; [exact Hrecv |].
    split; [exact Hchild | exact Hemit].
Qed.

End Derivation.

(** C10: [WithOperation(op)] is [With(StringAttr("operation", op))],
    whichever receiver [StringAttr] is called on: both return the same
    address in the same world, so whatever runs next behaves the same; the
    derived logger has exactly one more attached attribute, the string
    [op] under the key ["operation"]. *)
Theorem WithOperation_as_With (σ : World) (l r : loc) (op : string) :
  WithOperation l op σ = With l [StringAttr r "operation" op] σ /\
  (forall (A : Type) (next : loc -> M A),
      (WithOperation l op ≫= next) σ
        = (With l [StringAttr r "operation" op] ≫= next) σ) /\
  (forall lg, loggerAt σ l = Some lg ->
     exists child σ',
       With l [StringAttr r "operation" op] σ = (Returned child, σ') /\
       exists lg',
         loggerAt σ' child = Some lg' /\
         Slog.attrs (Slog.handler lg') =
           Slog.attrs (Slog.handler lg)
           ++ [Slog.mkAttr "operation" (Slog.KindString op)]).
Proof.
  split; [reflexivity |]. split; [reflexivity |].
  intros lg Hl.
  eexists _, _.
  split; [exact (With_run σ l lg [StringAttr r "operation" op] Hl) |].
  eexists. split.
  - unfold loggerAt. simpl. rewrite lookup_insert_eq. reflexivity.
  - reflexivity.
Qed.

Lemma derivation_leaves_receiver_witness :
  exists child σ',
    With 1%positive [Slog.any_string "user"; Slog.any_string "ann"] sampleWorld
      = (Returned child, σ') /\
    receiverUntouched sampleWorld σ' 1%positive child /\
    loggerAt σ' 1%positive = Some sampleLogger /\
    loggerAt σ' child =
      Some (Slog.Logger_With sampleLogger
              [Slog.any_string "user"; Slog.any_string "ann"]) /\
    emitsAsBefore (E := errorString) 1%positive sampleWorld σ'.
Proof.
  refine (proj1 (derivation_leaves_receiver (E := errorString) sampleWorld
                   1%positive sampleLogger
                   [Slog.any_string "user"; Slog.any_string "ann"]
                   "checkout" _)).
  reflexivity.
Defined.

Lemma WithOperation_as_With_witness :
  exists child σ',
    With 1%positive [StringAttr 1%positive "operation" "checkout"] sampleWorld
      = (Returned child, σ') /\
    exists lg',
      loggerAt σ' child = Some lg' /\
      Slog.attrs (Slog.handler lg') =
        Slog.attrs (Slog.handler sampleLogger)
        ++ [Slog.mkAttr "operation" (Slog.KindString "checkout")].
Proof.
  refine (proj2 (proj2 (WithOperation_as_With sampleWorld 1%positive
                          1%positive "checkout")) sampleLogger _).
  reflexivity.
Defined.

(** ** Derivation keeps loggers usable *)

Lemma Logger_With_level (lg : Slog.Logger) (args : list Slog.any) :
  Slog.level (Slog.handler (Slog.Logger_With lg args))
    = Slog.level (Slog.handler lg).
Proof. destruct args; reflexivity. Qed.

Lemma With_usable (σ σ' : World) (l child : loc) (attributes : list Slog.any) :
  usable σ l ->
  With l attributes σ = (Returned child, σ') ->
  usable σ' child /\ usable σ' l.
Proof.
  intros (lg & Hl & Hfloor) Hrun.
  rewrite (With_run σ l lg attributes Hl) in Hrun.
  injection Hrun as <- <-.
  destruct (alloc_receiverUntouched (E := errorString) σ l lg
              {| logger := Some (Slog.Logger_With lg attributes) |} Hl)
    as (_ & Hrecv & Hchild & _).
  split.
  - eexists. split; [exact Hchild |]. now rewrite Logger_With_level.
  - exists lg. now split.
Qed.

(** ** A run from construction to emission

    A logger is built on standard output at the info level, a child is
    derived for an operation, and both log: the debug call is dropped, the
    parent's record has no operation tag, the child's has it. *)
Example derive_then_emit :
  written
    (snd ((parent ← InitLogger sampleEnv LevelInfo "stdout";
           child ← WithOperation parent "checkout";
           Debug parent "dropped" [];;
           Info parent "started" [];;
           Warn child "slow" [Slog.any_string "ms"; Slog.any_int 900])
            emptyWorld))
  = [ {| Slog.em_sink := Os.Stdout; Slog.em_renderer := Slog.JSON;
         Slog.em_level := Slog.LevelInfo; Slog.em_msg := "started";
         Slog.em_attrs := [programInfo sampleEnv] |};
      {| Slog.em_sink := Os.Stdout; Slog.em_renderer := Slog.JSON;
         Slog.em_level := Slog.LevelWarn; Slog.em_msg := "slow";
         Slog.em_attrs :=
           [programInfo sampleEnv;
            Slog.mkAttr "operation" (Slog.KindString "checkout");
            Slog.mkAttr "ms" (Slog.KindInt64 900)] |} ].
Proof. vm_compute. reflexivity. Qed.

(** * Further properties of the package *)

(** ** Modes and their strings *)

(** X1: [ParseMode] undoes [Mode.String] on the two declared modes and on
    nothing else: a mode that is neither constant comes back as the
    production mode. Parsing what a parse printed changes nothing. *)
Theorem ParseMode_String_roundtrip (m : ModeResolver.Mode) :
  (ModeResolver.ParseMode (ModeResolver.Mode_String m) = m <->
   m = ModeResolver.DevMode \/ m = ModeResolver.ProdMode) /\
  (m <> ModeResolver.DevMode -> m <> ModeResolver.ProdMode ->
   ModeResolver.ParseMode (ModeResolver.Mode_String m)
     = ModeResolver.ProdMode) /\
  ModeResolver.ParseMode
    (ModeResolver.Mode_String (ModeResolver.ParseMode m))
    = ModeResolver.ParseMode m.
Proof.
  unfold ModeResolver.Mode_String.
  destruct (ModeResolverFacts.ParseMode_cases m) as [[Hm Hres] | [Hm Hres]];
    rewrite Hres.
  - subst m. split; [split; [now left | reflexivity] |].
    split; [intros Hd; now elim Hd | reflexivity].
  - split; [| split; [intros _ _; reflexivity | reflexivity]].
    split.
    + intros <-. now right.
    + intros [-> | ->]; [now elim Hm | reflexivity].
Qed.

Lemma ParseMode_String_roundtrip_witness :
  ModeResolver.ParseMode (ModeResolver.Mode_String "test")
    = ModeResolver.ProdMode.
Proof.
  apply (proj1 (proj2 (ParseMode_String_roundtrip "test"))); discriminate.
Defined.

(** ** Handler selection and the [tint] options *)


(** X2: the options handed to [getHandlerForOutput] matter only where the
    [tint] handler is chosen. For the info, warn and error levels the
    result is the same whatever the options are; for every other level the
    floor of the result is the level the options carry. *)
Theorem getHandlerForOutput_options (output : Os.Writer) (mode : LogLevel)
        (o1 o2 : Tint.Options) :
  (mode = LevelInfo \/ mode = LevelWarn \/ mode = LevelError ->
   getHandlerForOutput output mode o1 = getHandlerForOutput output mode o2) /\
  (mode <> LevelInfo -> mode <> LevelWarn -> mode <> LevelError ->
   Slog.level (getHandlerForOutput output mode o1) = Tint.Level o1).
Proof.
  split.
  - intros [-> | [-> | ->]]; reflexivity.
  - intros Hi Hw He.
    destruct (getHandlerForOutput_cases output mode o1)
      as [[_ Hh] | [[Hm Hh] | [_ Hh]]]; rewrite Hh; try reflexivity.
    simpl in Hm. destruct Hm as [Hk | [Hk | [Hk | []]]]; congruence.
Qed.

Lemma getHandlerForOutput_options_witness :
  getHandlerForOutput Os.Stdout LevelWarn initOptions
    = getHandlerForOutput Os.Stdout LevelWarn
        {| Tint.Level := Slog.LevelError; Tint.TimeFormat := "";
           Tint.NoColor := true |}.
Proof.
  apply (proj1 (getHandlerForOutput_options Os.Stdout LevelWarn initOptions
                  {| Tint.Level := Slog.LevelError; Tint.TimeFormat := "";
                     Tint.NoColor := true |})).
  right; left; reflexivity.
Defined.

(** ** What the level methods touch *)

Lemma runMethod_unfold (k : LevelMethod) (l : loc) (msg : string)
      (args : list Slog.any) :
  runMethod k l msg args =
    (s ← deref l; Logger_log_ptr (logger s) (methodLevel k) msg args).
Proof. destruct k; reflexivity. Qed.


Lemma Logger_log_length (lg : Slog.Logger) (lvl : Slog.Level) (msg : string)
      (args : list Slog.any) :
  (length (Slog.Logger_log lg lvl msg args) <= 1)%nat.
Proof.
  unfold Slog.Logger_log. destruct (Slog.Enabled _ _); simpl; lia.
Qed.

(** A level method allocates nothing, opens nothing, and adds at most one
    record behind those already written, whether it returns or panics. *)
Lemma level_method_frame (σ : World) (l : loc) (lvl : Slog.Level)
      (msg : string) (args : list Slog.any) :
  let σ' := snd ((s ← deref l; Logger_log_ptr (logger s) lvl msg args) σ) in
  heap σ' = heap σ /\ opens σ' = opens σ /\
  exists es, written σ' = written σ ++ es /\ (length es <= 1)%nat.
Proof.
  unfold mbind, M_bind, deref.
  destruct (heap σ !! l) as [s |]; simpl.
  - unfold Logger_log_ptr. destruct (logger s) as [lg |]; simpl.
    + repeat split. eexists. split; [reflexivity | apply Logger_log_length].
    + repeat split. exists []. rewrite app_nil_r. split; [reflexivity | simpl; lia].
  - repeat split. exists []. rewrite app_nil_r. split; [reflexivity | simpl; lia].
Qed.

(** X3: [Debug], [Info], [Warn], [Error] and [LogAndReturnError] never
    allocate a logger and never ask the filesystem for anything; the
    records written before the call are kept, and at most one is added
    behind them. This holds on every receiver, usable or not. *)
Theorem level_methods_frame {E} `{GoError E} (σ : World) (l : loc)
        (msg : string) (err : option E) (args : list Slog.any) :
  let frame (σ' : World) :=
    heap σ' = heap σ /\ opens σ' = opens σ /\
    exists es, written σ' = written σ ++ es /\ (length es <= 1)%nat in
  (forall k, frame (snd (runMethod k l msg args σ))) /\
  frame (snd (Error l msg err args σ)) /\
  frame (snd (LogAndReturnError l msg err args σ)).
Proof.
  intros frame. subst frame.
  assert (HError : forall σ', σ' = snd (Error l msg err args σ) ->
            heap σ' = heap σ /\ opens σ' = opens σ /\
            exists es, written σ' = written σ ++ es /\ (length es <= 1)%nat).
  { intros σ' ->. rewrite Error_unfold. apply level_method_frame. }
  split; [| split].
  - intros k. rewrite runMethod_unfold. apply level_method_frame.
  - now apply HError.
  - apply HError. unfold LogAndReturnError, mbind, M_bind.
    destruct (Error l msg err args σ) as [[[] | v] σ']; reflexivity.
Qed.

(** ** Receivers that hold no logger *)

Lemma level_method_unallocated (σ : World) (l : loc) (lvl : Slog.Level)
      (msg : string) (args : list Slog.any) :
  heap σ !! l = None ->
  (s ← deref l; Logger_log_ptr (logger s) lvl msg args) σ
    = (Panicked nilDereference, σ).
Proof.
  intros Hl. now rewrite (bind_Panicked _ _ σ _ σ (deref_None σ l Hl)).
Qed.

Lemma level_method_nil_logger (σ : World) (l : loc) (s : Slogger)
      (lvl : Slog.Level) (msg : string) (args : list Slog.any) :
  heap σ !! l = Some s -> logger s = None ->
  (s ← deref l; Logger_log_ptr (logger s) lvl msg args) σ
    = (Panicked nilDereference, σ).
Proof.
  intros Hl Hnil.
  rewrite (bind_Returned _ _ σ s σ (deref_Some σ l s Hl)), Hnil.
  reflexivity.
Qed.

(** X4: every method that reads its receiver panics with the nil
    dereference error when the receiver points at no struct, and leaves
    the world as it found it: no record, no allocation, and
    [LogAndReturnError] does not hand the error back. [StringAttr] and
    [AnyAttr] never read the receiver and still build their attribute. *)
Theorem nil_receiver_panics {E} `{GoError E} (σ : World) (l : loc)
        (msg : string) (err : option E) (args : list Slog.any)
        (op key value : string) :
  heap σ !! l = None ->
  (forall k, runMethod k l msg args σ = (Panicked nilDereference, σ)) /\
  Error l msg err args σ = (Panicked nilDereference, σ) /\
  LogAndReturnError l msg err args σ = (Panicked nilDereference, σ) /\
  With l args σ = (Panicked nilDereference, σ) /\
  WithOperation l op σ = (Panicked nilDereference, σ) /\
  StringAttr l key value = Slog.any_Attr (Slog.String key value).
Proof.
  intros Hl.
  assert (HError : Error l msg err args σ = (Panicked nilDereference, σ)).
  { rewrite Error_unfold. now apply level_method_unallocated. }
  split; [| split; [| split; [| split; [| split]]]].
  - intros k. rewrite runMethod_unfold. now apply level_method_unallocated.
  - exact HError.
  - unfold LogAndReturnError. now rewrite (bind_Panicked _ _ _ _ _ HError).
  - unfold With. now rewrite (bind_Panicked _ _ σ _ σ (deref_None σ l Hl)).
  - unfold WithOperation.
    now rewrite (bind_Panicked _ _ σ _ σ (deref_None σ l Hl)).
  - reflexivity.
Qed.

Lemma nil_receiver_panics_witness :
  Error (E := errorString) 7%positive "boom" None [] sampleWorld
    = (Panicked nilDereference, sampleWorld).
Proof.
  refine (proj1 (proj2 (nil_receiver_panics (E := errorString) sampleWorld
                          7%positive "boom" None [] "op" "k" "v" _))).
  reflexivity.
Defined.

(** X5: on the zero value [Slogger{}], whose [logger] field is nil, the
    level methods, [Error], [LogAndReturnError] and [WithOperation] panic
    with the nil dereference error and leave the world as it was. *)
Theorem zero_value_panics {E} `{GoError E} (σ : World) (l : loc)
        (msg : string) (err : option E) (args : list Slog.any) (op : string) :
  heap σ !! l = Some {| logger := None |} ->
  (forall k, runMethod k l msg args σ = (Panicked nilDereference, σ)) /\
  Error l msg err args σ = (Panicked nilDereference, σ) /\
  LogAndReturnError l msg err args σ = (Panicked nilDereference, σ) /\
  WithOperation l op σ = (Panicked nilDereference, σ).
Proof.
  intros Hl.
  assert (HError : Error l msg err args σ = (Panicked nilDereference, σ)).
  { rewrite Error_unfold.
    now apply (level_method_nil_logger σ l {| logger := None |}). }
  split; [| split; [| split]].
  - intros k. rewrite runMethod_unfold.
    now apply (level_method_nil_logger σ l {| logger := None |}).
  - exact HError.
  - unfold LogAndReturnError. now rewrite (bind_Panicked _ _ _ _ _ HError).
  - unfold WithOperation.
    now rewrite (bind_Returned _ _ σ _ σ (deref_Some σ l _ Hl)).
Qed.

Lemma zero_value_panics_witness :
  WithOperation 1%positive "checkout" zeroValueWorld
    = (Panicked nilDereference, zeroValueWorld).
Proof.
  refine (proj2 (proj2 (proj2
            (zero_value_panics (E := errorString) zeroValueWorld 1%positive
               "m" None [] "checkout" _)))).
  reflexivity.
Defined.

(** ** The floor of a constructed logger *)

Lemma Logger_log_enabled (lg : Slog.Logger) (lvl : Slog.Level) (msg : string)
      (args : list Slog.any) :
  (Slog.level (Slog.handler lg) <= lvl)%Z ->
  Slog.Logger_log lg lvl msg args =
    [recordOf lg lvl msg (List.filter Slog.keepAttr (Slog.argsToAttrSlice args))].
Proof.
  intros Hfloor. unfold Slog.Logger_log, Slog.Enabled.
  apply Z.leb_le in Hfloor. now rewrite Hfloor.
Qed.





(** ** The attached program information *)

Lemma getHandlerForOutput_attrs (output : Os.Writer) (mode : LogLevel)
      (options : Tint.Options) :
  Slog.attrs (getHandlerForOutput output mode options) = [].
Proof.
  destruct (getHandlerForOutput_cases output mode options)
    as [[_ Hh] | [[_ Hh] | [_ Hh]]]; now rewrite Hh.
Qed.

(** X7: the logger [InitLogger] returns has exactly one attached
    attribute: the group ["program_info"] with the single string member
    ["go_version"], whose value is the version of the build information
    when there is one and the literal ["unknown"] when there is none. *)
Theorem InitLogger_program_info {E} `{GoError E} (env : Env E)
        (mode : LogLevel) (output : string) (σ σ' : World) (l : loc) :
  InitLogger env mode output σ = (Returned l, σ') ->
  exists lg,
    loggerAt σ' l = Some lg /\
    Slog.attrs (Slog.handler lg) =
      [Slog.mkAttr "program_info"
         (Slog.KindGroup
            [Slog.mkAttr "go_version"
               (Slog.KindString
                  match ReadBuildInfo env with
                  | Some info => GoVersion info
                  | None => "unknown"
                  end)])].
Proof.
  intros Hrun.
  destruct (InitLogger_handler env mode output σ σ' l Hrun)
    as (out & _ & Hl).
  eexists. split; [exact Hl |]. simpl.
  rewrite getHandlerForOutput_attrs. unfold programInfo, goVersionOf.
  now destruct (ReadBuildInfo env).
Qed.

Lemma InitLogger_program_info_witness :
  exists lg,
    loggerAt sampleWorld 1%positive = Some lg /\
    Slog.attrs (Slog.handler lg) =
      [Slog.mkAttr "program_info"
         (Slog.KindGroup
            [Slog.mkAttr "go_version" (Slog.KindString "go1.22.1")])].
Proof.
  refine (InitLogger_program_info sampleEnv LevelInfo "stdout" emptyWorld
            sampleWorld 1%positive _).
  vm_compute. reflexivity.
Defined.

(** ** Usable loggers *)

Lemma usable_alloc (σ : World) (l0 : loc) (s : Slogger) :
  usable σ l0 ->
  usable {| heap := <[fresh (dom (heap σ)) := s]> (heap σ);
            opens := opens σ; written := written σ |} l0.
Proof.
  intros (lg & Hl & Hfloor). exists lg. split; [| assumption].
  unfold loggerAt in *. simpl.
  destruct (decide (fresh (dom (heap σ)) = l0)) as [<- | Hne].
  - rewrite fresh_not_allocated in Hl. discriminate.
  - now rewrite lookup_insert_ne.
Qed.

Lemma usable_same_heap (σ σ' : World) (l0 : loc) :
  heap σ' = heap σ -> usable σ l0 -> usable σ' l0.
Proof.
  intros Hheap (lg & Hl & Hfloor). exists lg. split; [| assumption].
  unfold loggerAt in *. now rewrite Hheap.
Qed.

(** X8: being usable (logger field set, floor at most the error level) is
    an invariant of the package: [InitLogger] returns a usable logger,
    [With] and [WithOperation] on a usable receiver return a usable child,
    and none of these three, nor any level method, makes a usable logger
    unusable. *)
Theorem usable_invariant {E} `{GoError E} (env : Env E) (σ σ' : World)
        (l child l0 : loc) (mode : LogLevel) (output msg op : string)
        (err : option E) (args : list Slog.any) (k : LevelMethod) :
  (InitLogger env mode output σ = (Returned l, σ') ->
   usable σ' l /\ (usable σ l0 -> usable σ' l0)) /\
  (usable σ l -> With l args σ = (Returned child, σ') ->
   usable σ' child /\ (usable σ l0 -> usable σ' l0)) /\
  (usable σ l -> WithOperation l op σ = (Returned child, σ') ->
   usable σ' child /\ (usable σ l0 -> usable σ' l0)) /\
  (usable σ l0 -> usable (snd (runMethod k l msg args σ)) l0) /\
  (usable σ l0 -> usable (snd (Error l msg err args σ)) l0).
Proof.
  assert (HWith : forall a, usable σ l -> With l a σ = (Returned child, σ') ->
            usable σ' child /\ (usable σ l0 -> usable σ' l0)).
  { intros a Hu Hrun. split; [apply (With_usable σ σ' l child a Hu Hrun) |].
    destruct Hu as (lg & Hl & _).
    rewrite (With_run σ l lg a Hl) in Hrun. injection Hrun as <- <-.
    apply usable_alloc. }
  split; [| split; [| split; [| split]]].
  - intros Hrun.
    destruct (InitLogger_usable env mode output σ σ' l Hrun) as (_ & Hu & Hkeep).
    split; [exact Hu | apply Hkeep].
  - apply HWith.
  - apply HWith.
  - rewrite runMethod_unfold. apply usable_same_heap, level_method_frame.
  - rewrite Error_unfold. apply usable_same_heap, level_method_frame.
Qed.

Lemma usable_invariant_witness : usable sampleWorld 1%positive.
Proof.
  refine (proj1 (proj1 (usable_invariant (E := errorString) sampleEnv
                          emptyWorld sampleWorld 1%positive 1%positive
                          1%positive LevelInfo "stdout" "m" "op" None []
                          viaInfo) _)).
  vm_compute. reflexivity.
Defined.

(** ** [Error] on any attribute list *)

Lemma Error_run {E} `{GoError E} (σ : World) (l : loc) (lg : Slog.Logger)
      (msg : string) (err : option E) (attributes : list Slog.any) :
  loggerAt σ l = Some lg ->
  (Slog.level (Slog.handler lg) <= Slog.LevelError)%Z ->
  Error l msg err attributes σ =
    (Returned tt,
     {| heap := heap σ; opens := opens σ;
        written :=
          written σ ++
          [recordOf lg Slog.LevelError msg
             (List.filter Slog.keepAttr
                (Slog.argsToAttrSlice
                   (attributes
                      ++ [Slog.any_Attr
                            (Slog.String "error" (errorField err))])))] |}).
Proof.
  intros Hl Hfloor.
  rewrite Error_unfold, (level_method_run σ l lg) by assumption.
  now rewrite Logger_log_enabled.
Qed.

(** X9: on a usable logger [Error] always returns and always writes
    exactly one record, at the error level, with the given message, to
    the logger's sink and in its rendering, whatever the attribute list
    is (a list ending in a lone key included). *)
Theorem Error_writes_once {E} `{GoError E} (σ : World) (l : loc)
        (msg : string) (err : option E) (attributes : list Slog.any) :
  usable σ l ->
  exists lg e,
    loggerAt σ l = Some lg /\
    Error l msg err attributes σ =
      (Returned tt,
       {| heap := heap σ; opens := opens σ;
          written := written σ ++ [e] |}) /\
    Slog.em_level e = Slog.LevelError /\
    Slog.em_msg e = msg /\
    Slog.em_sink e = Slog.w (Slog.handler lg) /\
    Slog.em_renderer e = Slog.renderer (Slog.handler lg).
Proof.
  intros (lg & Hl & Hfloor). eexists lg, _.
  split; [exact Hl |].
  split; [exact (Error_run σ l lg msg err attributes Hl Hfloor) |].
  repeat split.
Qed.

Lemma Error_writes_once_witness :
  exists lg e,
    loggerAt sampleWorld 1%positive = Some lg /\
    Error 1%positive "boom" (Some (errors_New "disk full"))
      [Slog.any_string "request_id"] sampleWorld =
      (Returned tt,
       {| heap := heap sampleWorld; opens := opens sampleWorld;
          written := written sampleWorld ++ [e] |}) /\
    Slog.em_level e = Slog.LevelError /\
    Slog.em_msg e = "boom" /\
    Slog.em_sink e = Slog.w (Slog.handler lg) /\
    Slog.em_renderer e = Slog.renderer (Slog.handler lg).
Proof.
  refine (Error_writes_once sampleWorld 1%positive "boom"
            (Some (errors_New "disk full")) [Slog.any_string "request_id"] _).
  exists sampleLogger. split; [reflexivity | vm_compute; discriminate].
Defined.

(** X10: when the attribute list ends in a string key that has no value,
    [Error] on a usable logger writes its one record with the error
    attribute stored as the value of that key: after the attached
    attributes and those of the list without its last key comes the
    attribute [key = Attr("error", text)], and nothing is added under the
    key ["error"]. *)
Theorem Error_dangling_key {E} `{GoError E} (σ : World) (l : loc)
        (lg : Slog.Logger) (msg : string) (err : option E)
        (attributes : list Slog.any) :
  loggerAt σ l = Some lg ->
  (Slog.level (Slog.handler lg) <= Slog.LevelError)%Z ->
  danglingKey attributes = true ->
  exists pre key,
    attributes = pre ++ [Slog.any_string key] /\
    danglingKey pre = false /\
    Error l msg err attributes σ =
      (Returned tt,
       {| heap := heap σ; opens := opens σ;
          written :=
            written σ ++
            [recordOf lg Slog.LevelError msg
               (List.filter Slog.keepAttr (Slog.argsToAttrSlice pre)
                ++ [Slog.mkAttr key
                      (Slog.KindAny
                         (Slog.any_Attr
                            (Slog.String "error"
                               match err with
                               | None => "nil"
                               | Some e => Error_text e
                               end)))])] |}).
Proof.
  intros Hl Hfloor Hdangling.
  destruct (argsToAttrSlice_snoc_dangling
              (Slog.String "error" (errorField err)) attributes Hdangling)
    as (pre & key & Heq & Hpre & Hslice).
  exists pre, key. split; [exact Heq |]. split; [exact Hpre |].
  rewrite (Error_run σ l lg msg err attributes Hl Hfloor), Hslice.
  rewrite List.filter_app. reflexivity.
Qed.

Lemma Error_dangling_key_witness :
  exists pre key,
    [Slog.any_string "user"; Slog.any_int 7; Slog.any_string "request_id"]
      = pre ++ [Slog.any_string key] /\
    danglingKey pre = false /\
    Error 1%positive "boom" (@None errorString)
      [Slog.any_string "user"; Slog.any_int 7; Slog.any_string "request_id"]
      sampleWorld =
      (Returned tt,
       {| heap := heap sampleWorld; opens := opens sampleWorld;
          written :=
            written sampleWorld ++
            [recordOf sampleLogger Slog.LevelError "boom"
               (List.filter Slog.keepAttr (Slog.argsToAttrSlice pre)
                ++ [Slog.mkAttr key
                      (Slog.KindAny
                         (Slog.any_Attr (Slog.String "error" "nil")))])] |}).
Proof.
  refine (Error_dangling_key sampleWorld 1%positive sampleLogger "boom" None
            [Slog.any_string "user"; Slog.any_int 7;
             Slog.any_string "request_id"] _ _ _).
  - reflexivity.
  - vm_compute. discriminate.
  - reflexivity.
Defined.

(** ** Pairing across a concatenation *)

Lemma argsToAttrSlice_app_both (b a : list Slog.any) :
  (danglingKey a = false ->
   Slog.argsToAttrSlice (a ++ b)
     = Slog.argsToAttrSlice a ++ Slog.argsToAttrSlice b) /\
  (forall x, danglingKey (x :: a) = false ->
   Slog.argsToAttrSlice ((x :: a) ++ b)
     = Slog.argsToAttrSlice (x :: a) ++ Slog.argsToAttrSlice b).
Proof.
  induction a as [| y a [IHa IHcons]].
  - split; [reflexivity |].
    intros x Hx. destruct (isKey x) eqn:Hkey.
    + destruct x; try discriminate Hkey. discriminate Hx.
    + change (([x] ++ b)) with (x :: b).
      now rewrite !argsToAttrSlice_value.
  - split; [apply IHcons |].
    intros x Hx. destruct (isKey x) eqn:Hkey.
    + destruct x; try discriminate Hkey.
      change (danglingKey a = false) in Hx.
      change (Slog.Any s y :: Slog.argsToAttrSlice (a ++ b)
              = Slog.Any s y
                  :: (Slog.argsToAttrSlice a ++ Slog.argsToAttrSlice b)).
      now rewrite IHa.
    + rewrite danglingKey_value in Hx by assumption.
      change ((x :: y :: a) ++ b) with (x :: ((y :: a) ++ b)).
      rewrite !argsToAttrSlice_value by assumption.
      now rewrite (IHcons y Hx).
Qed.

Lemma argsToAttrSlice_app (a b : list Slog.any) :
  danglingKey a = false ->
  Slog.argsToAttrSlice (a ++ b)
    = Slog.argsToAttrSlice a ++ Slog.argsToAttrSlice b.
Proof. apply argsToAttrSlice_app_both. Qed.

Lemma level_method_ext (σ : World) (l : loc) (lvl : Slog.Level) (msg : string)
      (a b : list Slog.any) :
  Slog.argsToAttrSlice a = Slog.argsToAttrSlice b ->
  (s ← deref l; Logger_log_ptr (logger s) lvl msg a) σ
    = (s ← deref l; Logger_log_ptr (logger s) lvl msg b) σ.
Proof.
  intros Hslice. unfold mbind, M_bind, deref.
  destruct (heap σ !! l) as [s |]; [| reflexivity].
  unfold Logger_log_ptr. destruct (logger s) as [lg |]; [| reflexivity].
  unfold Slog.Logger_log, Slog.Record_Add. now rewrite Hslice.
Qed.

Lemma With_ext (σ : World) (l : loc) (a b : list Slog.any) :
  Slog.argsToAttrSlice a = Slog.argsToAttrSlice b ->
  a <> [] -> b <> [] ->
  With l a σ = With l b σ.
Proof.
  intros Hslice Ha Hb. unfold With, mbind, M_bind, deref.
  destruct (heap σ !! l) as [s |]; [| reflexivity].
  destruct a as [| x a]; [congruence |]. destruct b as [| y b]; [congruence |].
  unfold Logger_With_ptr. destruct (logger s) as [lg |]; [| reflexivity].
  unfold Slog.Logger_With. now rewrite Hslice.
Qed.

(** ** Attribute builders *)

(** X11: an attribute built by [AnyAttr(key, value)] counts, wherever it
    stands in an argument list whose earlier part leaves no key waiting
    for a value, exactly as the two arguments [key, value] would;
    [StringAttr(key, value)] is [AnyAttr] on a string value. So every
    level method, [Error], and [With] behave the same on both spellings. *)
Theorem attr_builders_are_pairs {E} `{GoError E} (r : loc) (key : string)
        (value : Slog.any) (text : string) (pre post : list Slog.any) :
  danglingKey pre = false ->
  let built := pre ++ AnyAttr r key value :: post in
  let paired := pre ++ Slog.any_string key :: value :: post in
  StringAttr r key text = AnyAttr r key (Slog.any_string text) /\
  Slog.argsToAttrSlice built = Slog.argsToAttrSlice paired /\
  (forall k l msg σ,
      runMethod k l msg built σ = runMethod k l msg paired σ) /\
  (forall l msg (err : option E) σ,
      Error l msg err built σ = Error l msg err paired σ) /\
  (forall l σ, With l built σ = With l paired σ).
Proof.
  intros Hpre built paired.
  assert (Hslice : Slog.argsToAttrSlice built = Slog.argsToAttrSlice paired).
  { subst built paired. now rewrite !argsToAttrSlice_app. }
  split; [reflexivity |]. split; [exact Hslice |].
  split; [| split].
  - intros k l msg σ. rewrite !runMethod_unfold. now apply level_method_ext.
  - intros l msg err σ. rewrite !Error_unfold. apply level_method_ext.
    subst built paired. rewrite <- !app_assoc.
    rewrite (argsToAttrSlice_app pre
               ((AnyAttr r key value :: post) ++ _) Hpre).
    rewrite (argsToAttrSlice_app pre
               ((Slog.any_string key :: value :: post) ++ _) Hpre).
    reflexivity.
  - intros l σ. apply With_ext; [exact Hslice | |];
      subst built paired; now destruct pre.
Qed.

Lemma attr_builders_are_pairs_witness :
  Info 1%positive "saved"
    [Slog.any_string "n"; Slog.any_int 3;
     StringAttr 1%positive "user" "ann"; Slog.any_bool true] sampleWorld
  = Info 1%positive "saved"
      [Slog.any_string "n"; Slog.any_int 3;
       Slog.any_string "user"; Slog.any_string "ann"; Slog.any_bool true]
      sampleWorld.
Proof.
  refine (proj1 (proj2 (proj2
            (attr_builders_are_pairs (E := errorString) 1%positive "user"
               (Slog.any_string "ann") "ann"
               [Slog.any_string "n"; Slog.any_int 3] [Slog.any_bool true] _)))
            viaInfo 1%positive "saved" sampleWorld).
  reflexivity.
Defined.

(** ** Derived loggers *)

Lemma loggerAt_alloc (σ : World) (s : Slogger) (l0 : loc) (lg0 : Slog.Logger) :
  loggerAt σ l0 = Some lg0 ->
  loggerAt {| heap := <[fresh (dom (heap σ)) := s]> (heap σ);
              opens := opens σ; written := written σ |} l0 = Some lg0.
Proof.
  intros Hl0. unfold loggerAt in *. simpl.
  rewrite lookup_insert_ne; [exact Hl0 |].
  intros Heq. rewrite <- Heq, fresh_not_allocated in Hl0. discriminate.
Qed.

Lemma With_child (σ : World) (l : loc) (lg : Slog.Logger)
      (attributes : list Slog.any) :
  loggerAt σ l = Some lg ->
  exists child σ',
    With l attributes σ = (Returned child, σ') /\
    loggerAt σ' child = Some (Slog.Logger_With lg attributes) /\
    (forall l0 lg0, loggerAt σ l0 = Some lg0 -> loggerAt σ' l0 = Some lg0) /\
    written σ' = written σ.
Proof.
  intros Hl. eexists _, _.
  split; [exact (With_run σ l lg attributes Hl) |].
  split; [| split; [| reflexivity]].
  - unfold loggerAt. simpl. now rewrite lookup_insert_eq.
  - intros l0 lg0. apply loggerAt_alloc.
Qed.

Lemma Slog_With_With (lg : Slog.Logger) (a b : list Slog.any) :
  danglingKey a = false ->
  Slog.Logger_With (Slog.Logger_With lg a) b = Slog.Logger_With lg (a ++ b).
Proof.
  intros Ha. destruct lg as [h].
  destruct a as [| x a]; [reflexivity |].
  destruct b as [| y b]; [now rewrite app_nil_r |].
  change ((x :: a) ++ y :: b) with (x :: (a ++ y :: b)).
  unfold Slog.Logger_With, Slog.WithAttrs. simpl Slog.handler.
  change (x :: (a ++ y :: b)) with ((x :: a) ++ y :: b).
  rewrite (argsToAttrSlice_app (x :: a) (y :: b) Ha).
  simpl. now rewrite app_assoc.
Qed.

(** X12: derivations compose. Deriving with [a] and then, from the child,
    with [b] yields a logger equal to the one a single [With] on [a ++ b]
    yields, provided [a] leaves no key waiting for a value; the
    intermediate child keeps only the attributes of [a]. *)
Theorem With_twice (σ : World) (l : loc) (lg : Slog.Logger)
        (a b : list Slog.any) :
  loggerAt σ l = Some lg ->
  danglingKey a = false ->
  exists child σ1 grandchild σ2 direct σ3,
    With l a σ = (Returned child, σ1) /\
    With child b σ1 = (Returned grandchild, σ2) /\
    With l (a ++ b) σ = (Returned direct, σ3) /\
    loggerAt σ2 grandchild = loggerAt σ3 direct /\
    loggerAt σ3 direct = Some (Slog.Logger_With lg (a ++ b)) /\
    loggerAt σ2 child = Some (Slog.Logger_With lg a) /\
    loggerAt σ2 l = Some lg.
Proof.
  intros Hl Ha.
  destruct (With_child σ l lg a Hl)
    as (child & σ1 & Hrun1 & Hchild & Hkeep1 & _).
  destruct (With_child σ1 child _ b Hchild)
    as (grandchild & σ2 & Hrun2 & Hgrand & Hkeep2 & _).
  destruct (With_child σ l lg (a ++ b) Hl)
    as (direct & σ3 & Hrun3 & Hdirect & _ & _).
  exists child, σ1, grandchild, σ2, direct, σ3.
  split; [exact Hrun1 |]. split; [exact Hrun2 |]. split; [exact Hrun3 |].
  rewrite Hgrand, Hdirect, Slog_With_With by assumption.
  split; [reflexivity |]. split; [reflexivity |].
  split; [now apply Hkeep2 | now apply Hkeep2, Hkeep1].
Qed.

Lemma With_twice_witness :
  exists child σ1 grandchild σ2 direct σ3,
    With 1%positive [Slog.any_string "user"; Slog.any_string "ann"] sampleWorld
      = (Returned child, σ1) /\
    With child [Slog.any_string "cart"; Slog.any_int 9] σ1
      = (Returned grandchild, σ2) /\
    With 1%positive
      ([Slog.any_string "user"; Slog.any_string "ann"]
         ++ [Slog.any_string "cart"; Slog.any_int 9]) sampleWorld
      = (Returned direct, σ3) /\
    loggerAt σ2 grandchild = loggerAt σ3 direct /\
    loggerAt σ3 direct =
      Some (Slog.Logger_With sampleLogger
              ([Slog.any_string "user"; Slog.any_string "ann"]
                 ++ [Slog.any_string "cart"; Slog.any_int 9])) /\
    loggerAt σ2 child =
      Some (Slog.Logger_With sampleLogger
              [Slog.any_string "user"; Slog.any_string "ann"]) /\
    loggerAt σ2 1%positive = Some sampleLogger.
Proof.
  refine (With_twice sampleWorld 1%positive sampleLogger
            [Slog.any_string "user"; Slog.any_string "ann"]
            [Slog.any_string "cart"; Slog.any_int 9] _ _);
    reflexivity.
Defined.



(** X14: [WithOperation] does not replace an operation tag set earlier.
    Deriving for [op1] and then, from the child, for [op2] leaves two
    attributes under the key ["operation"] on the grandchild, [op1]
    before [op2], behind the attributes the receiver already had. *)
Theorem WithOperation_twice (σ : World) (l : loc) (lg : Slog.Logger)
        (op1 op2 : string) :
  loggerAt σ l = Some lg ->
  exists child σ1 grandchild σ2 lg2,
    WithOperation l op1 σ = (Returned child, σ1) /\
    WithOperation child op2 σ1 = (Returned grandchild, σ2) /\
    loggerAt σ2 grandchild = Some lg2 /\
    Slog.attrs (Slog.handler lg2) =
      Slog.attrs (Slog.handler lg)
      ++ [Slog.String "operation" op1; Slog.String "operation" op2].
Proof.
  intros Hl.
  destruct (With_child σ l lg
              [Slog.any_Attr (Slog.String "operation" op1)] Hl)
    as (child & σ1 & Hrun1 & Hchild & _ & _).
  destruct (With_child σ1 child _
              [Slog.any_Attr (Slog.String "operation" op2)] Hchild)
    as (grandchild & σ2 & Hrun2 & Hgrand & _ & _).
  exists child, σ1, grandchild, σ2. eexists.
  split; [exact Hrun1 |]. split; [exact Hrun2 |]. split; [exact Hgrand |].
  simpl. now rewrite <- app_assoc.
Qed.

Lemma WithOperation_twice_witness :
  exists child σ1 grandchild σ2 lg2,
    WithOperation 1%positive "checkout" sampleWorld = (Returned child, σ1) /\
    WithOperation child "payment" σ1 = (Returned grandchild, σ2) /\
    loggerAt σ2 grandchild = Some lg2 /\
    Slog.attrs (Slog.handler lg2) =
      Slog.attrs (Slog.handler sampleLogger)
      ++ [Slog.String "operation" "checkout";
          Slog.String "operation" "payment"].
Proof.
  refine (WithOperation_twice sampleWorld 1%positive sampleLogger
            "checkout" "payment" _).
  reflexivity.
Defined.

(** ** Construction beside existing loggers *)

(** X15: a construction that returns touches nothing that was there: the
    returned address was unallocated, every other address holds what it
    held, no record is written, and every emission through an existing
    logger behaves as it would have before the construction. *)
Theorem InitLogger_frame {E} `{GoError E} (env : Env E) (mode : LogLevel)
        (output : string) (σ σ' : World) (l : loc) :
  InitLogger env mode output σ = (Returned l, σ') ->
  heap σ !! l = None /\
  (forall l0, l0 <> l -> heap σ' !! l0 = heap σ !! l0) /\
  written σ' = written σ /\
  (forall l0, l0 <> l -> emitsAsBefore (E := E) l0 σ σ').
Proof.
  rewrite InitLogger_run.
  destruct (resolveSink env output) as [out | err]; [| discriminate].
  simpl. intros Hrun. injection Hrun as <- <-.
  assert (Hkeep : forall l0, l0 <> fresh (dom (heap σ)) ->
            <[fresh (dom (heap σ)) := constructed env out mode]> (heap σ) !! l0
              = heap σ !! l0)
    by (intros l0 Hne; now rewrite lookup_insert_ne).
  split; [apply fresh_not_allocated |].
  split; [exact Hkeep |]. split; [reflexivity |].
  intros l0 Hne. apply emitsAsBefore_of_same_struct; simpl; [| reflexivity].
  now apply Hkeep.
Qed.

Lemma InitLogger_frame_witness :
  heap sampleWorld !! 2%positive = None /\
  (forall l0, l0 <> 2%positive ->
     heap (snd (InitLogger sampleEnv LevelDebug "stderr" sampleWorld)) !! l0
       = heap sampleWorld !! l0) /\
  written (snd (InitLogger sampleEnv LevelDebug "stderr" sampleWorld))
    = written sampleWorld /\
  (forall l0, l0 <> 2%positive ->
     emitsAsBefore (E := errorString) l0 sampleWorld
       (snd (InitLogger sampleEnv LevelDebug "stderr" sampleWorld))).
Proof.
  refine (InitLogger_frame sampleEnv LevelDebug "stderr" sampleWorld
            (snd (InitLogger sampleEnv LevelDebug "stderr" sampleWorld))
            2%positive _).
  vm_compute. reflexivity.
Defined.
